(** * Real-Estate-Scraper: the bounded-concurrency fetch-and-orchestrate engine

    A shallow embedding of [src/async_scraper.py] (with the two dataclasses of
    [src/models.py] it works on) and the properties of its fetch layer,
    property scraper and job manager.

    Conventions of the embedding:
    - a Python [Optional[T]] is an [option T]; truthiness ([if x:]) is written
      out per type: a number is truthy when it is not zero, a string or a
      list when it is not empty, [None] never;
    - [Optional[float]] fields hold finite numbers (ints or finite floats);
      they are exact rationals [Q], on which Python's mixed int/float
      comparisons are exact as well.  [Optional[int]] fields are [Z];
    - [request_delay] and the sleeps are exact rationals too; the code
      computes each sleep as a binary64 product, the rounding of the
      rational one kept here;
    - strings are byte strings; [lower] lower-cases the ASCII letters;
    - a coroutine that can raise returns an [outcome]; exceptions carry the
      text [str(e)] gives;
    - what the network answers is an oracle: the argument [session_get] of the
      fetch functions tells, for the attempt number, what the
      [async with self.session.get(...)] block observed. *)

From Stdlib Require Import QArith Lqa Floats Ascii String.
From stdpp Require Import base list strings gmap relations sorting pretty.

Local Open Scope Z_scope.

(** ** Python helpers *)

Definition nonzeroQ (x : Q) : bool := negb (Qeq_bool x 0).
Definition nonzeroZ (x : Z) : bool := negb (x =? 0).
Definition Qltb (x y : Q) : bool := negb (Qle_bool y x).

(** [if x:] on an [Optional[float]], an [Optional[int]], an [Optional[str]]
    and a list. *)
Definition truthyQ (x : option Q) : bool :=
  match x with Some q => nonzeroQ q | None => false end.
Definition truthyZ (x : option Z) : bool :=
  match x with Some z => nonzeroZ z | None => false end.
Definition truthy_str (x : option string) : bool :=
  match x with Some s => negb (String.eqb s "") | None => false end.
Definition truthy_list {A} (l : list A) : bool :=
  match l with [] => false | _ :: _ => true end.

(** [str.lower()] on the ASCII letters. *)
Definition lower_ascii (c : ascii) : ascii :=
  let n := nat_of_ascii c in
  if ((65 <=? n) && (n <=? 90))%nat then ascii_of_nat (n + 32) else c.

Fixpoint lower (s : string) : string :=
  match s with
  | EmptyString => EmptyString
  | String c s' => String (lower_ascii c) (lower s')
  end.

(** [x in l] on a list of strings. *)
Definition str_in (x : string) (l : list string) : bool :=
  existsb (String.eqb x) l.

(** [a / b] on two ints (both below 2^53, as list lengths are): the binary64
    quotient, or [None] for the [ZeroDivisionError]. *)
Definition py_truediv (a b : Z) : option float :=
  if b =? 0 then None
  else Some (PrimFloat.div (PrimFloat.of_uint63 (Uint63.of_Z a))
                           (PrimFloat.of_uint63 (Uint63.of_Z b))).

(** ** models.py *)

(** The fields of [Property] that the scraper writes or reads; the remaining
    ones keep their dataclass defaults throughout. *)
Record Property := {
  id : option string;
  title : option string;
  price : option Q;
  address : option string;
  bedrooms : option Z;
  bathrooms : option Q;
  square_feet : option Q;
  property_type : option string;
  source_url : option string;
  source_website : option string;
  scraped_at : Z
}.

Record SearchCriteria := {
  location : string;
  min_price : option Q;
  max_price : option Q;
  min_bedrooms : option Z;
  max_bedrooms : option Z;
  min_bathrooms : option Q;
  max_bathrooms : option Q;
  property_types : list string;
  max_pages : option Z
}.

(** ** AsyncPropertyScraper.filter_properties *)

(** The five [if ...: continue] tests of the loop body, in order.  Each is an
    [and] chain, so it is false as soon as the criterion or the field is
    falsy. *)
Definition price_below_min (criteria : SearchCriteria) (prop : Property) : bool :=
  truthyQ (min_price criteria) && truthyQ (price prop) &&
  match price prop, min_price criteria with
  | Some x, Some lo => Qltb x lo
  | _, _ => false
  end.

Definition price_above_max (criteria : SearchCriteria) (prop : Property) : bool :=
  truthyQ (max_price criteria) && truthyQ (price prop) &&
  match price prop, max_price criteria with
  | Some x, Some hi => Qltb hi x
  | _, _ => false
  end.

Definition bedrooms_below_min (criteria : SearchCriteria) (prop : Property) : bool :=
  truthyZ (min_bedrooms criteria) && truthyZ (bedrooms prop) &&
  match bedrooms prop, min_bedrooms criteria with
  | Some b, Some lo => b <? lo
  | _, _ => false
  end.

Definition bedrooms_above_max (criteria : SearchCriteria) (prop : Property) : bool :=
  truthyZ (max_bedrooms criteria) && truthyZ (bedrooms prop) &&
  match bedrooms prop, max_bedrooms criteria with
  | Some b, Some hi => hi <? b
  | _, _ => false
  end.

Definition type_not_listed (criteria : SearchCriteria) (prop : Property) : bool :=
  truthy_list (property_types criteria) && truthy_str (property_type prop) &&
  match property_type prop with
  | Some t => negb (str_in (lower t) (map lower (property_types criteria)))
  | None => false
  end.

(** One iteration: [true] when the iteration reaches [filtered.append(prop)]. *)
Definition passes (criteria : SearchCriteria) (prop : Property) : bool :=
  if price_below_min criteria prop then false
  else if price_above_max criteria prop then false
  else if bedrooms_below_min criteria prop then false
  else if bedrooms_above_max criteria prop then false
  else if type_not_listed criteria prop then false
  else true.

Definition filter_step (criteria : SearchCriteria)
    (filtered : list Property) (prop : Property) : list Property :=
  if passes criteria prop then filtered ++ [prop] else filtered.

Definition filter_properties (properties : list Property)
    (criteria : SearchCriteria) : list Property :=
  fold_left (filter_step criteria) properties [].

(** ** AsyncBaseScraper: one fetch *)

(** What one [async with self.session.get(url, headers=headers)] block
    observed: a response whose text was read, an [asyncio.TimeoutError], or
    any other [Exception] raised inside the block. *)
Inductive attempt_result :=
| Response (status : Z) (text : string)
| TimeoutError
| ClientError (message : string).

(** What a fetch does to the outside, in order. *)
Inductive event :=
| Sleep (seconds : Q)
| Get (url : string) (user_agent : string).

Definition user_agents : list string := [
  "Mozilla/5.0 (Windows NT 10.0; Win64; x64) AppleWebKit/537.36 (KHTML, like Gecko) Chrome/91.0.4472.124 Safari/537.36";
  "Mozilla/5.0 (Macintosh; Intel Mac OS X 10_15_7) AppleWebKit/537.36 (KHTML, like Gecko) Chrome/91.0.4472.124 Safari/537.36";
  "Mozilla/5.0 (X11; Linux x86_64) AppleWebKit/537.36 (KHTML, like Gecko) Chrome/91.0.4472.124 Safari/537.36";
  "Mozilla/5.0 (Windows NT 10.0; Win64; x64; rv:89.0) Gecko/20100101 Firefox/89.0";
  "Mozilla/5.0 (Macintosh; Intel Mac OS X 10.15; rv:89.0) Gecko/20100101 Firefox/89.0"
]%string.

(** The part of the scraper object a fetch mutates, and the trace of what it
    did.  The cursor is the scraper's: a fetch that runs beside others of a
    batch finds it moved by them between its attempts, which the step
    relation of the semaphore below accounts for; what a fetch returns and
    how many requests it makes do not depend on the cursor. *)
Record fetch_state := {
  current_user_agent : nat;
  events : list event
}.

Definition initial_fetch_state : fetch_state :=
  {| current_user_agent := 0; events := [] |}.

Definition record_event (e : event) (st : fetch_state) : fetch_state :=
  {| current_user_agent := current_user_agent st; events := events st ++ [e] |}.

Definition get_user_agent (st : fetch_state) : string * fetch_state :=
  (nth (current_user_agent st) user_agents ""%string,
   {| current_user_agent := (current_user_agent st + 1) mod length user_agents;
      events := events st |}).

(** The sleep that opens attempt number [attempt]. *)
Definition attempt_delay (request_delay : Q) (attempt : nat) : Q :=
  if (0 <? attempt)%nat
  then (request_delay * inject_Z (Z.of_nat attempt + 1))%Q
  else request_delay.

(** How one attempt ends: [return content], or on to the next iteration,
    after the rate-limit sleep when the status was 429. *)
Inductive verdict :=
| ReturnContent (content : string)
| NextAttempt (rate_limited : bool).

Definition judge (r : attempt_result) : verdict :=
  match r with
  | Response status text =>
      if status =? 200 then ReturnContent text
      else if status =? 429 then NextAttempt true
      else NextAttempt false
  | TimeoutError => NextAttempt false
  | ClientError _ => NextAttempt false
  end.

(** The body of [for attempt in range(retries)], over the attempts still to
    make; falling off the loop is [return None]. *)
Fixpoint fetch_attempts (request_delay : Q) (session_get : nat -> attempt_result)
    (url : string) (attempts : list nat) (st : fetch_state)
    : option string * fetch_state :=
  match attempts with
  | [] => (None, st)
  | attempt :: rest =>
      let st1 := record_event (Sleep (attempt_delay request_delay attempt)) st in
      let '(ua, st2) := get_user_agent st1 in
      let st3 := record_event (Get url ua) st2 in
      match judge (session_get attempt) with
      | ReturnContent content => (Some content, st3)
      | NextAttempt true =>
          fetch_attempts request_delay session_get url rest
            (record_event (Sleep (request_delay * 5)%Q) st3)
      | NextAttempt false =>
          fetch_attempts request_delay session_get url rest st3
      end
  end.

Definition fetch_page (request_delay : Q) (session_get : nat -> attempt_result)
    (url : string) (retries : Z) (st : fetch_state) : option string * fetch_state :=
  fetch_attempts request_delay session_get url (seq 0 (Z.to_nat retries)) st.

(** The GETs of a trace. *)
Definition is_get (e : event) : bool :=
  match e with Get _ _ => true | Sleep _ => false end.

Definition attempts_made (tr : list event) : nat :=
  length (List.filter is_get tr).

(** The sleeping time in front of each GET of a trace: entry [n] is what the
    fetch slept between its GET number [n - 1] (or its start) and its GET
    number [n]. *)
Fixpoint backoffs_from (slept : Q) (tr : list event) : list Q :=
  match tr with
  | [] => []
  | Sleep d :: tr' => backoffs_from (slept + d)%Q tr'
  | Get _ _ :: tr' => slept :: backoffs_from 0%Q tr'
  end.

Definition backoffs (tr : list event) : list Q := backoffs_from 0%Q tr.

(** ** AsyncBaseScraper: the semaphore around the fetches

    [fetch_page] runs its whole loop inside [async with self.semaphore].  The
    fetches of a batch are coroutines of one event loop; a configuration
    holds the semaphore's counter, the shared user-agent cursor and where
    each coroutine stands.  A step is what one coroutine does between two
    suspension points. *)
Inductive task_state :=
| Blocked
| InLoop (attempt : nat)
| Finished (result : option string).

Record config := {
  sem_value : Z;
  agent_cursor : nat;
  tasks : list task_state
}.

Definition initial_config (max_concurrent : Z) (n : nat) : config :=
  {| sem_value := max_concurrent; agent_cursor := 0; tasks := replicate n Blocked |}.

Definition holds_slot (t : task_state) : bool :=
  match t with InLoop _ => true | _ => false end.

Definition in_flight (c : config) : nat :=
  length (List.filter holds_slot (tasks c)).

Definition rotate (cursor : nat) : nat := ((cursor + 1) mod length user_agents)%nat.

(** [step_acquire]: [Semaphore.acquire] goes through only while the counter
    is positive, and takes one off it.  [step_retry] and [step_return] are one
    iteration of the loop, ending in the next iteration or in [return
    content]; [step_exhausted] is the [return None] after the loop.  Leaving
    the [async with] block is [Semaphore.release]: one onto the counter. *)
Inductive step (retries : nat) (session_get : nat -> nat -> attempt_result)
    : config -> config -> Prop :=
| step_acquire c i :
    tasks c !! i = Some Blocked ->
    0 < sem_value c ->
    step retries session_get c
      {| sem_value := sem_value c - 1;
         agent_cursor := agent_cursor c;
         tasks := <[i := InLoop 0]> (tasks c) |}
| step_retry c i attempt limited :
    tasks c !! i = Some (InLoop attempt) ->
    (attempt < retries)%nat ->
    judge (session_get i attempt) = NextAttempt limited ->
    step retries session_get c
      {| sem_value := sem_value c;
         agent_cursor := rotate (agent_cursor c);
         tasks := <[i := InLoop (S attempt)]> (tasks c) |}
| step_return c i attempt content :
    tasks c !! i = Some (InLoop attempt) ->
    (attempt < retries)%nat ->
    judge (session_get i attempt) = ReturnContent content ->
    step retries session_get c
      {| sem_value := sem_value c + 1;
         agent_cursor := rotate (agent_cursor c);
         tasks := <[i := Finished (Some content)]> (tasks c) |}
| step_exhausted c i attempt :
    tasks c !! i = Some (InLoop attempt) ->
    (retries <= attempt)%nat ->
    step retries session_get c
      {| sem_value := sem_value c + 1;
         agent_cursor := agent_cursor c;
         tasks := <[i := Finished None]> (tasks c) |}.

(** The configurations a batch of [n] fetches can be in. *)
Definition reachable (max_concurrent : Z) (retries : nat)
    (session_get : nat -> nat -> attempt_result) (n : nat) (c : config) : Prop :=
  rtc (step retries session_get) (initial_config max_concurrent n) c.

(** ** AsyncBaseScraper: a batch of fetches *)

(** What an awaited coroutine gives [asyncio.gather(..., return_exceptions=True)]:
    the value it returned, or the [Exception] it raised, which is what
    [isinstance(result, Exception)] recognises.  A cancellation is not among
    the outcomes: nothing here cancels a task. *)
Inductive outcome (A : Type) :=
| Returned (value : A)
| Raised (message : string).
Arguments Returned {A} value.
Arguments Raised {A} message.

(** [asyncio.gather]: task [i] finishes at time [latency i]; the results come
    in as the tasks finish, each is filed under the index of its task, and
    the list handed back reads the indices in order. *)
Definition finishes_first {A} (latency : nat -> nat) (x y : nat * A) : Prop :=
  (latency x.1 <= latency y.1)%nat.

#[global] Instance finishes_first_dec {A} (latency : nat -> nat) :
  RelDecision (@finishes_first A latency).
Proof. intros x y. unfold finishes_first. apply _. Defined.

Definition arrivals {A} (latency : nat -> nat) (results : list A) : list (nat * A) :=
  merge_sort (finishes_first latency) (imap pair results).

Definition gather {A} (latency : nat -> nat) (results : list A) : list A :=
  let filed : gmap nat A := list_to_map (arrivals latency results) in
  omap (fun i => filed !! i) (seq 0 (length results)).

(** The loop over [enumerate(results)]: the pages, and the [successful]
    count. *)
Definition page_of (result : outcome (option string)) : option string :=
  match result with
  | Raised _ => None
  | Returned (Some content) => Some content
  | Returned None => None
  end.

Definition is_successful (result : outcome (option string)) : bool :=
  match result with
  | Returned (Some _) => true
  | _ => false
  end.

(** [fetch i url] is what the coroutine [self.fetch_page(url)] made for
    position [i] comes to: [gather] returns once every fetch has finished,
    which behind a semaphore made with 0 none ever does. *)
Definition fetch_multiple_pages (fetch : nat -> string -> outcome (option string))
    (latency : nat -> nat) (urls : list string) : list (option string) :=
  let tasks := imap fetch urls in
  let results := gather latency tasks in
  map page_of results.

Definition successful_count (fetch : nat -> string -> outcome (option string))
    (latency : nat -> nat) (urls : list string) : nat :=
  length (List.filter is_successful (gather latency (imap fetch urls))).

(** The coroutine [self.fetch_page(url)] of the class as written: the default
    [retries = 3], and a result that does not depend on the cursor it
    started from. *)
Definition fetch_page_outcome (request_delay : Q)
    (session_get : nat -> attempt_result) (url : string) (retries : Z)
    : outcome (option string) :=
  Returned (fetch_page request_delay session_get url retries initial_fetch_state).1.

Definition fetch_page_task (request_delay : Q)
    (session_get : nat -> nat -> attempt_result) (i : nat) (url : string)
    : outcome (option string) :=
  fetch_page_outcome request_delay (session_get i) url 3.

(** Exceptions propagate through a sequence of statements. *)
#[global] Instance outcome_ret : MRet outcome := fun A x => Returned x.
#[global] Instance outcome_bind : MBind outcome := fun A B f m =>
  match m with
  | Returned x => f x
  | Raised e => Raised e
  end.

(** ** AsyncPropertyScraper *)

Record scraper := {
  max_concurrent : Z;
  request_delay : Q;
  scraped_properties : list Property;
  failed_urls : list string
}.

(** [AsyncPropertyScraper(max_concurrent, request_delay)]; the constructor of
    [asyncio.Semaphore] refuses a negative value with a [ValueError]. *)
Definition new_scraper (max_concurrent : Z) (request_delay : Q) : outcome scraper :=
  if max_concurrent <? 0
  then Raised "Semaphore initial value must be >= 0"
  else Returned {| max_concurrent := max_concurrent;
                   request_delay := request_delay;
                   scraped_properties := [];
                   failed_urls := [] |}.

(** [validators.py], the first loop of [validate_property]: a record
    without a title, a price or an address gets an error for each, and a
    record with an error is invalid whatever the later checks find. *)
Definition missing_required_fields (property_data : Property) : list string :=
  (if truthy_str (title property_data) then []
   else ["Missing required field: title"%string]) ++
  (if truthyQ (price property_data) then []
   else ["Missing required field: price"%string]) ++
  (if truthy_str (address property_data) then []
   else ["Missing required field: address"%string]).

Definition validate_required_fields (property_data : Property)
    : bool * list string :=
  let errors := missing_required_fields property_data in
  (Nat.eqb (length errors) 0, errors).

(** What a scraping session is run against: the fetch coroutine started for
    each position of a batch with the time it takes, the page parser (a
    subclass overrides [parse_property_page]; it may return [None] or raise)
    and what [self.validator.validate_property(property_data.to_dict())]
    comes to: the verdict [(is_valid, errors)], or the exception that
    [to_dict] or the validator raised (the validator's [float(price)] is
    guarded against [ValueError] and [TypeError] only). *)
Record environment := {
  run_fetch_page : nat -> string -> outcome (option string);
  fetch_latency : nat -> nat;
  run_parse_property_page : string -> string -> outcome (option Property);
  run_validate_property : Property -> outcome (bool * list string)
}.

(** [url.split('/')[-1]]: what follows the last slash. *)
Fixpoint last_segment (acc : string) (s : string) : string :=
  match s with
  | EmptyString => acc
  | String c s' =>
      if Ascii.eqb c "/" then last_segment EmptyString s'
      else last_segment (acc +:+ String c EmptyString) s'
  end.

Fixpoint contains_slash (s : string) : bool :=
  match s with
  | EmptyString => false
  | String c s' => Ascii.eqb c "/" || contains_slash s'
  end.

(** [parse_property_page] as the class ships it: a mock record computed from
    the URL and the length of the page; [now] is [datetime.now()]. *)
Definition parse_property_page (now : Z) (url content : string)
    : outcome (option Property) :=
  let property_id :=
    if contains_slash url then last_segment EmptyString url else "unknown"%string in
  let n := Z.of_nat (String.length content) in
  Returned (Some {|
    id := Some ("async_" +:+ property_id);
    title := Some ("Async Scraped Property " +:+ property_id);
    price := Some (inject_Z (500000 + n mod 500000));
    address := Some "123 Async Street, Demo City, State"%string;
    bedrooms := Some (2 + n mod 4);
    bathrooms := Some ((3 # 2) + inject_Z (n mod 3))%Q;
    square_feet := Some (inject_Z (1000 + n mod 2000));
    property_type := Some "House"%string;
    source_url := Some url;
    source_website := Some "AsyncDemo"%string;
    scraped_at := now
  |}).

(** One iteration of the loop over [zip(urls, pages)], on the local list
    [properties] and on [self.failed_urls].  The [try] covers the parse, the
    [to_dict] and the validation: an exception of any of them ends in the
    [except] branch. *)
Definition scrape_step (env : environment)
    (acc : list Property * list string) (item : string * option string)
    : list Property * list string :=
  let '(properties, failed) := acc in
  let '(url, page_content) := item in
  match page_content with
  | Some content =>
      if String.eqb content "" then (properties, failed ++ [url])
      else
        match run_parse_property_page env url content with
        | Returned (Some property_data) =>
            match run_validate_property env property_data with
            | Returned (is_valid, errors) =>
                if is_valid
                then (properties ++ [property_data], failed)
                else (properties, failed)
            | Raised _ => (properties, failed ++ [url])
            end
        | Returned None => (properties, failed)
        | Raised _ => (properties, failed ++ [url])
        end
  | None => (properties, failed ++ [url])
  end.

Definition scrape_property_urls (env : environment) (urls : list string)
    (self : scraper) : list Property * scraper :=
  let pages := fetch_multiple_pages (run_fetch_page env) (fetch_latency env) urls in
  let '(properties, failed) :=
    fold_left (scrape_step env) (zip urls pages) ([], failed_urls self) in
  (properties,
   {| max_concurrent := max_concurrent self;
      request_delay := request_delay self;
      scraped_properties := scraped_properties self ++ properties;
      failed_urls := failed |}).

Definition base_url : string := "https://example-realestate.com/property/".

(** [[f"{base_url}{i}" for i in range(1, min(max_properties + 1, 51))]] *)
Definition property_urls (max_properties : Z) : list string :=
  map (fun i : Z => base_url +:+ pretty i)
      (seqZ 1 (Z.min (max_properties + 1) 51 - 1)).

Definition scrape_search_results (env : environment)
    (search_criteria : SearchCriteria) (max_properties : Z) (self : scraper)
    : list Property * scraper :=
  let '(properties, self') :=
    scrape_property_urls env (property_urls max_properties) self in
  (filter_properties properties search_criteria, self').

Record scraping_stats := {
  total_properties_scraped : Z;
  failed_urls_count : Z;
  success_rate : float;
  stats_max_concurrent : Z;
  stats_request_delay : Q
}.

(** The dictionary of [get_scraping_stats]; the quotient is the one place
    that could raise. *)
Definition get_scraping_stats (self : scraper) : outcome scraping_stats :=
  let scraped := Z.of_nat (length (scraped_properties self)) in
  let failed := Z.of_nat (length (failed_urls self)) in
  match py_truediv scraped (Z.max (scraped + failed) 1) with
  | None => Raised "division by zero"
  | Some ratio =>
      Returned {| total_properties_scraped := scraped;
                  failed_urls_count := failed;
                  success_rate := PrimFloat.mul ratio 100%float;
                  stats_max_concurrent := max_concurrent self;
                  stats_request_delay := request_delay self |}
  end.

(** ** AsyncScrapingManager *)

(** The two dictionaries a job ends in, told apart by ['status']; the clock
    readings ['duration'] and ['completed_at'] are left out.  The entry
    [run_multiple_jobs] writes for a raised job has no ['job_id']. *)
Inductive job_result :=
| JobCompleted (job_id : string) (properties : list Property)
    (property_count : nat) (search_criteria : SearchCriteria)
    (stats : scraping_stats)
| JobFailed (job_id : option string) (error : string).

Inductive job_status := completed | failed.

Definition status (r : job_result) : job_status :=
  match r with
  | JobCompleted _ _ _ _ _ => completed
  | JobFailed _ _ => failed
  end.

Definition records (r : job_result) : list Property :=
  match r with
  | JobCompleted _ properties _ _ _ => properties
  | JobFailed _ _ => []
  end.

Record manager := {
  active_scrapers : gmap string scraper;
  completed_jobs : list job_result
}.

(** The [try] block of [run_scraping_job] up to the stats: the scraper it
    registered, the properties and the stats, or the exception. *)
Definition job_body (env : environment) (search_criteria : SearchCriteria)
    (max_properties max_concurrent : Z)
    : outcome (scraper * list Property * scraping_stats) :=
  scraper0 ← new_scraper max_concurrent 2;
  let '(properties, scraper1) :=
    scrape_search_results env search_criteria max_properties scraper0 in
  stats ← get_scraping_stats scraper1;
  mret (scraper0, properties, stats).

Definition run_scraping_job (env : environment) (job_id : string)
    (search_criteria : SearchCriteria) (max_properties max_concurrent : Z)
    (self : manager) : job_result * manager :=
  match job_body env search_criteria max_properties max_concurrent with
  | Returned (scraper0, properties, stats) =>
      let registered := <[job_id := scraper0]> (active_scrapers self) in
      let job_result :=
        JobCompleted job_id properties (length properties) search_criteria stats in
      (job_result,
       {| active_scrapers := delete job_id registered;
          completed_jobs := completed_jobs self ++ [job_result] |})
  | Raised e =>
      let error_result := JobFailed (Some job_id) e in
      (error_result,
       {| active_scrapers := delete job_id (active_scrapers self);
          completed_jobs := completed_jobs self ++ [error_result] |})
  end.

(** A job dictionary: ['job_id'] and ['search_criteria'] are read with
    [job[...]], the other two with [job.get(..., default)]. *)
Record job := {
  job_id_of : string;
  search_criteria_of : SearchCriteria;
  max_properties_of : option Z;
  max_concurrent_of : option Z
}.

(** The loop over the gathered results. *)
Definition job_result_of (result : outcome job_result) : job_result :=
  match result with
  | Raised e => JobFailed None e
  | Returned r => r
  end.

Definition start_job (envs : nat -> environment) (i : nat) (j : job)
    (self : manager) : job_result * manager :=
  run_scraping_job (envs i) (job_id_of j) (search_criteria_of j)
    (default 100 (max_properties_of j)) (default 5 (max_concurrent_of j)) self.

(** [envs i] is what the scraper of job [i] runs against, [job_latency i]
    the time job [i] takes.  The manager's history receives the jobs as they
    finish. *)
Definition run_multiple_jobs (envs : nat -> environment)
    (job_latency : nat -> nat) (jobs : list job) (self : manager)
    : list job_result * manager :=
  let tasks := imap (fun i j => Returned (start_job envs i j self).1) jobs in
  let results := gather job_latency tasks in
  (map job_result_of results,
   foldl (fun m x => (start_job envs x.1 x.2 m).2) self (arrivals job_latency jobs)).

(** ** AsyncScrapingManager: the status queries *)

(** The three dictionaries [get_job_status] returns: the running job with
    the number of properties its scraper holds, the stored result of a
    finished job, or ['status': 'not_found']. *)
Inductive job_report :=
| ReportRunning (job_id : string) (properties_scraped : nat)
| ReportResult (result : job_result)
| ReportNotFound (job_id : string).

(** [job.get('job_id')] on a stored result. *)
Definition stored_job_id (r : job_result) : option string :=
  match r with
  | JobCompleted job_id _ _ _ _ => Some job_id
  | JobFailed job_id _ => job_id
  end.

Definition has_job_id (job_id : string) (r : job_result) : bool :=
  match stored_job_id r with
  | Some stored => String.eqb stored job_id
  | None => false
  end.

(** The active jobs are looked at first, then the history from its oldest
    entry on. *)
Definition get_job_status (job_id : string) (self : manager) : job_report :=
  match active_scrapers self !! job_id with
  | Some running => ReportRunning job_id (length (scraped_properties running))
  | None =>
      match List.find (has_job_id job_id) (completed_jobs self) with
      | Some r => ReportResult r
      | None => ReportNotFound job_id
      end
  end.

(** The dictionary of [get_all_jobs_status]; ['active_job_ids'] is kept as
    the set of the keys, without the order the dictionary lists them in.
    [completed_jobs[-5:]] is the last five entries, or all of them when
    there are fewer. *)
Record jobs_overview := {
  active_jobs : nat;
  completed_jobs_count : nat;
  active_job_ids : gset string;
  recent_completed : list job_result
}.

Definition get_all_jobs_status (self : manager) : jobs_overview :=
  {| active_jobs := size (active_scrapers self);
     completed_jobs_count := length (completed_jobs self);
     active_job_ids := dom (active_scrapers self);
     recent_completed :=
       drop (length (completed_jobs self) - 5) (completed_jobs self) |}.

(** * The vocabulary of the statements *)

(** ** filter_properties *)

(** The criteria of the end-to-end scenario, and the records it asks for. *)
Definition scenario_criteria (criteria : SearchCriteria) : Prop :=
  min_price criteria = Some (inject_Z 300000) /\
  max_price criteria = Some (inject_Z 700000) /\
  min_bedrooms criteria = Some 2 /\
  max_bedrooms criteria = None /\
  property_types criteria = ["house"%string].

Definition fields_present (prop : Property) : Prop :=
  truthyQ (price prop) = true /\
  truthyZ (bedrooms prop) = true /\
  truthy_str (property_type prop) = true.

Definition wanted (prop : Property) : Prop :=
  match price prop, bedrooms prop, property_type prop with
  | Some x, Some b, Some t =>
      (inject_Z 300000 <= x)%Q /\ (x <= inject_Z 700000)%Q /\
      2 <= b /\ lower t = "house"%string
  | _, _, _ => False
  end.

#[global] Instance Qle_dec : RelDecision Qle :=
  fun x y => decide (Qnum x * QDen y <= Qnum y * QDen x).

#[global] Instance wanted_dec (prop : Property) : Decision (wanted prop).
Proof.
  unfold wanted.
  destruct (price prop), (bedrooms prop), (property_type prop); apply _.
Defined.

(** The record side or the criterion side of each of the five tests in
    [filter_properties] is falsy. *)
Definition all_tests_skipped (criteria : SearchCriteria) (prop : Property) : Prop :=
  (truthyQ (min_price criteria) = false \/ truthyQ (price prop) = false) /\
  (truthyQ (max_price criteria) = false \/ truthyQ (price prop) = false) /\
  (truthyZ (min_bedrooms criteria) = false \/ truthyZ (bedrooms prop) = false) /\
  (truthyZ (max_bedrooms criteria) = false \/ truthyZ (bedrooms prop) = false) /\
  (truthy_list (property_types criteria) = false \/
   truthy_str (property_type prop) = false).

(** ** get_scraping_stats *)

Definition float_of_len (n : nat) : float :=
  PrimFloat.of_uint63 (Uint63.of_Z (Z.of_nat n)).

(** ** fetch_page *)

(** An attempt that does not end the fetch: a status other than 200, a
    timeout, or another exception. *)
Definition fails (r : attempt_result) : Prop :=
  match r with
  | Response status _ => status <> 200
  | TimeoutError => True
  | ClientError _ => True
  end.

Definition rate_limited (r : attempt_result) : Prop :=
  exists text, r = Response 429 text.

(** What attempt number [attempt] adds to the trace, given the user agent it
    draws and whether it ran into the rate limit. *)
Definition attempt_events (request_delay : Q) (url : string) (cursor : nat)
    (attempt : nat) (limited : bool) : list event :=
  [Sleep (attempt_delay request_delay attempt);
   Get url (nth cursor user_agents ""%string)] ++
  (if limited then [Sleep (request_delay * 5)%Q] else []).

(** The sleeping time a trace ends on, not yet followed by a GET. *)
Fixpoint pending (slept : Q) (tr : list event) : Q :=
  match tr with
  | [] => slept
  | Sleep d :: tr' => pending (slept + d)%Q tr'
  | Get _ _ :: tr' => pending 0%Q tr'
  end.

(** Whether an attempt ran into the rate limit. *)
Definition limited_by (r : attempt_result) : bool :=
  match judge r with
  | NextAttempt limited => limited
  | ReturnContent _ => false
  end.

(** The state a run of failing attempts leaves. *)
Fixpoint after_failures (request_delay : Q) (session_get : nat -> attempt_result)
    (url : string) (attempts : list nat) (st : fetch_state) : fetch_state :=
  match attempts with
  | [] => st
  | a :: rest =>
      after_failures request_delay session_get url rest
        {| current_user_agent := rotate (current_user_agent st);
           events := events st ++
             attempt_events request_delay url (current_user_agent st) a
               (limited_by (session_get a)) |}
  end.

(** ** The semaphore *)

Definition slot_count (ts : list task_state) : nat :=
  length (List.filter holds_slot ts).

(** What every configuration of a batch satisfies: the slots taken and the
    counter add up to [max_concurrent], and the counter is not negative. *)
Definition gate_invariant (max_concurrent : Z) (n : nat) (c : config) : Prop :=
  Z.of_nat (in_flight c) + sem_value c = max_concurrent /\
  0 <= sem_value c /\
  length (tasks c) = n.

(** A coroutine of the batch is where [fetch_page] would be: inside the loop
    after [attempt] failed attempts, or finished with what [fetch_page]
    returns. *)
Definition task_sound (retries : nat) (session_get : nat -> attempt_result)
    (t : task_state) : Prop :=
  match t with
  | Blocked => True
  | InLoop attempt =>
      (attempt <= retries)%nat /\
      forall b, (b < attempt)%nat -> fails (session_get b)
  | Finished result =>
      forall request_delay url st,
        result = (fetch_page request_delay session_get url (Z.of_nat retries) st).1
  end.

Definition tasks_sound (retries : nat) (session_get : nat -> nat -> attempt_result)
    (c : config) : Prop :=
  forall i t, tasks c !! i = Some t -> task_sound retries (session_get i) t.

(** How many steps a coroutine can still make, at most; a batch runs out of
    steps when this reaches 0. *)
Definition work_left (retries : nat) (t : task_state) : nat :=
  match t with
  | Blocked => retries + 2
  | InLoop attempt => S (retries - attempt)
  | Finished _ => 0
  end.

Definition batch_work_left (retries : nat) (c : config) : nat :=
  sum_list_with (work_left retries) (tasks c).

Definition finished (t : task_state) : Prop := exists result, t = Finished result.

(** ** scrape_property_urls *)

(** What the loop does with one URL and its page: the record it appends to
    [properties], and whether it appends the URL to [failed_urls]. *)
Definition kept_of (env : environment) (item : string * option string)
    : option Property :=
  match item.2 with
  | Some content =>
      if String.eqb content "" then None
      else
        match run_parse_property_page env item.1 content with
        | Returned (Some property_data) =>
            match run_validate_property env property_data with
            | Returned (true, _) => Some property_data
            | _ => None
            end
        | _ => None
        end
  | None => None
  end.

Definition failed_of (env : environment) (item : string * option string)
    : option string :=
  match item.2 with
  | Some content =>
      if String.eqb content "" then Some item.1
      else
        match run_parse_property_page env item.1 content with
        | Raised _ => Some item.1
        | Returned (Some property_data) =>
            match run_validate_property env property_data with
            | Raised _ => Some item.1
            | Returned _ => None
            end
        | Returned None => None
        end
  | None => Some item.1
  end.

Definition page_at (env : environment) (i : nat) (url : string) : option string :=
  page_of (run_fetch_page env i url).

(** ** Sample runs *)

Definition listing (cost : Z) (beds : Z) (kind : string) : Property :=
  {| id := None; title := None; price := Some (inject_Z cost); address := None;
     bedrooms := Some beds; bathrooms := None; square_feet := None;
     property_type := Some kind; source_url := None; source_website := None;
     scraped_at := 0 |}.

Definition austin : SearchCriteria :=
  {| location := "Austin, TX";
     min_price := Some (inject_Z 300000); max_price := Some (inject_Z 700000);
     min_bedrooms := Some 2; max_bedrooms := None;
     min_bathrooms := None; max_bathrooms := None;
     property_types := ["house"%string]; max_pages := None |}.

Definition candidates : list Property :=
  [ listing 100000 3 "house"; listing 450000 3 "House"; listing 450000 1 "house";
    listing 700000 2 "HOUSE"; listing 500000 4 "condo"; listing 900000 5 "house";
    listing 300000 5 "house" ].

Definition bare_listing : Property :=
  {| id := None; title := None; price := Some 0%Q; address := None;
     bedrooms := None; bathrooms := None; square_feet := None;
     property_type := Some ""%string; source_url := None; source_website := None;
     scraped_at := 0 |}.

Definition always (status : Z) (attempt : nat) : attempt_result :=
  Response status "".

Definition url1 : string := "https://example-realestate.com/property/1".

(** Five URLs, the second fetch raises, and the fetches finish in reverse. *)
Definition flaky_fetch (i : nat) (url : string) : outcome (option string) :=
  if (i =? 1)%nat then Raised "boom" else Returned (Some ("page of " +:+ url)).

Definition one_in_flight : config :=
  {| sem_value := 0; agent_cursor := 0; tasks := [InLoop 0; Blocked] |}.

(** A session that scraped 7 records and lost 3 URLs. *)
Definition seven_of_ten : scraper :=
  {| max_concurrent := 5; request_delay := 2;
     scraped_properties := replicate 7 bare_listing;
     failed_urls := replicate 3 url1 |}.

Definition fresh_scraper : scraper :=
  {| max_concurrent := 5; request_delay := 2;
     scraped_properties := []; failed_urls := [] |}.

(** A scraper whose pages all arrive and whose parser finds nothing in
    them. *)
Definition nothing_parsed : environment :=
  {| run_fetch_page := fun _ _ => Returned (Some "<html></html>"%string);
     fetch_latency := fun _ => 0%nat;
     run_parse_property_page := fun _ _ => Returned None;
     run_validate_property := fun _ => Returned (true, []) |}.

(** A scraper whose pages all arrive and whose parser makes records without
    a title or an address. *)
Definition untitled_listings : environment :=
  {| run_fetch_page := fun _ _ => Returned (Some "<html></html>"%string);
     fetch_latency := fun _ => 0%nat;
     run_parse_property_page := fun _ _ => Returned (Some (listing 450000 3 "house"));
     run_validate_property := fun p => Returned (validate_required_fields p) |}.

(** A scraper whose pages all arrive and whose parser makes records with a
    price beyond the range of a float: [float(price)] raises an
    [OverflowError], which [validate_property] does not catch. *)
Definition overflowing_prices : environment :=
  {| run_fetch_page := fun _ _ => Returned (Some "<html></html>"%string);
     fetch_latency := fun _ => 0%nat;
     run_parse_property_page :=
       fun _ _ => Returned (Some (listing (10 ^ 400) 3 "house"));
     run_validate_property :=
       fun _ => Raised "int too large to convert to float" |}.

(** Three jobs; the pages of all three arrive, the parser of the second finds
    nothing, the jobs finish in reverse. *)
Definition pages_arrive (i : nat) (attempt : nat) : attempt_result :=
  if (attempt =? 1)%nat then Response 200 "<html>listing</html>"
  else Response 429 "".

Definition demo_site : environment :=
  {| run_fetch_page := fetch_page_task 2 pages_arrive;
     fetch_latency := fun i => (50 - i)%nat;
     run_parse_property_page := parse_property_page 0;
     run_validate_property := fun _ => Returned (true, []) |}.

Definition three_envs (i : nat) : environment :=
  if (i =? 1)%nat then nothing_parsed else demo_site.

Definition any_home : SearchCriteria :=
  {| location := "Austin, TX"; min_price := None; max_price := None;
     min_bedrooms := None; max_bedrooms := None;
     min_bathrooms := None; max_bathrooms := None;
     property_types := []; max_pages := None |}.

Definition three_jobs : list job :=
  [ {| job_id_of := "job-1"; search_criteria_of := any_home;
       max_properties_of := Some 2; max_concurrent_of := None |};
    {| job_id_of := "job-2"; search_criteria_of := austin;
       max_properties_of := Some 3; max_concurrent_of := Some 2 |};
    {| job_id_of := "job-3"; search_criteria_of := any_home;
       max_properties_of := Some 1; max_concurrent_of := None |} ].

Definition new_manager : manager :=
  {| active_scrapers := ∅; completed_jobs := [] |}.

(** A job given a negative [max_concurrent] fails in the constructor of its
    semaphore; its neighbours complete. *)
Definition one_bad_job : list job :=
  [ {| job_id_of := "job-1"; search_criteria_of := any_home;
       max_properties_of := Some 2; max_concurrent_of := None |};
    {| job_id_of := "job-2"; search_criteria_of := any_home;
       max_properties_of := None; max_concurrent_of := Some (-1) |};
    {| job_id_of := "job-3"; search_criteria_of := any_home;
       max_properties_of := Some 1; max_concurrent_of := None |} ].

(** ** More on the traces of a fetch *)

(** The calls of [asyncio.sleep] in a trace. *)
Definition is_sleep (e : event) : bool :=
  match e with Sleep _ => true | Get _ _ => false end.

Definition sleeps_made (tr : list event) : nat :=
  length (List.filter is_sleep tr).

(** Every GET of the trace comes straight after a sleep; [rested] tells
    whether the trace itself is entered straight after one. *)
Fixpoint paced (rested : bool) (tr : list event) : bool :=
  match tr with
  | [] => true
  | Sleep _ :: tr' => paced true tr'
  | Get _ _ :: tr' => rested && paced false tr'
  end.

(** The GETs a fetch makes over the attempts [attempts]: one for each
    attempt, up to and including the first that returns. *)
Fixpoint requests_until_return (session_get : nat -> attempt_result)
    (attempts : list nat) : nat :=
  match attempts with
  | [] => 0
  | attempt :: rest =>
      match judge (session_get attempt) with
      | ReturnContent _ => 1
      | NextAttempt _ => S (requests_until_return session_get rest)
      end
  end.

(** ** The requests of a batch *)

(** The GETs a coroutine of a batch has made where it stands, and those of
    the whole batch. *)
Definition requests_sent (retries : nat) (session_get : nat -> attempt_result)
    (t : task_state) : nat :=
  match t with
  | Blocked => 0
  | InLoop attempt => attempt
  | Finished _ => requests_until_return session_get (seq 0 retries)
  end.

Definition batch_requests (retries : nat)
    (session_get : nat -> nat -> attempt_result) (c : config) : nat :=
  sum_list (imap (fun i t => requests_sent retries (session_get i) t) (tasks c)).

(** The batch of [n] fetches a scraper starts when its cursor stands at
    [cursor]; the first batch of a scraper starts at 0. *)
Definition batch_from (max_concurrent : Z) (cursor n : nat) : config :=
  {| sem_value := max_concurrent; agent_cursor := cursor;
     tasks := replicate n Blocked |}.

(** [k] calls of [get_user_agent] in a row. *)
Definition rotate_agents (k : nat) (st : fetch_state) : fetch_state :=
  Nat.iter k (fun s => (get_user_agent s).2) st.

(** ** More sample runs *)

(** Two fetches behind two slots, taking turns: the first has made two
    requests, the second one. *)
Definition two_interleaved : config :=
  {| sem_value := 0; agent_cursor := 1; tasks := [InLoop 2; InLoop 1] |}.

(** A site that serves the first URL of a batch at once and never the
    second, and the batch of the two behind one slot, at its end. *)
Definition one_page_site (i : nat) (attempt : nat) : attempt_result :=
  if (i =? 0)%nat then Response 200 "<html>listing</html>" else Response 503 "".

Definition both_returned : config :=
  {| sem_value := 1; agent_cursor := 4;
     tasks := [Finished (Some "<html>listing</html>"%string); Finished None] |}.

Definition second_time_lucky (attempt : nat) : attempt_result :=
  if (attempt =? 1)%nat then Response 200 "<html>ok</html>" else TimeoutError.

Definition austin_shouting : SearchCriteria :=
  {| location := "Dallas, TX";
     min_price := Some (inject_Z 300000); max_price := Some (inject_Z 700000);
     min_bedrooms := Some 2; max_bedrooms := None;
     min_bathrooms := Some 3%Q; max_bathrooms := Some 1%Q;
     property_types := ["HOUSE"%string]; max_pages := Some 7 |}.

Definition demo_record : Property :=
  {| id := Some "async_1"%string;
     title := Some "Async Scraped Property 1"%string;
     price := Some (inject_Z 500020);
     address := Some "123 Async Street, Demo City, State"%string;
     bedrooms := Some 2;
     bathrooms := Some (7 # 2)%Q;
     square_feet := Some (inject_Z 1020);
     property_type := Some "House"%string;
     source_url := Some url1;
     source_website := Some "AsyncDemo"%string;
     scraped_at := 0 |}.

Definition demo_stats : scraping_stats :=
  {| total_properties_scraped := 1; failed_urls_count := 0;
     success_rate := 100%float;
     stats_max_concurrent := 5; stats_request_delay := 2 |}.

(** * Properties *)

Ltac unfold_tests :=
  unfold price_below_min, price_above_max, bedrooms_below_min,
    bedrooms_above_max, type_not_listed.

(** ** filter_properties *)

Lemma filter_properties_filter (properties : list Property) (criteria : SearchCriteria) :
  filter_properties properties criteria = List.filter (passes criteria) properties.
Proof.
  unfold filter_properties.
  enough (H : forall acc, fold_left (filter_step criteria) properties acc
                          = acc ++ List.filter (passes criteria) properties)
    by apply (H []).
  induction properties as [|p ps IH]; intros acc; simpl.
  - by rewrite app_nil_r.
  - rewrite IH. unfold filter_step. destruct (passes criteria p); simpl.
    + by rewrite <- app_assoc.
    + done.
Qed.

Lemma passes_scenario (criteria : SearchCriteria) (prop : Property) :
  scenario_criteria criteria -> fields_present prop ->
  passes criteria prop = true <-> wanted prop.
Proof.
  intros (Hlo & Hhi & Hb & Hmb & Hty) (Hp & Hbed & Ht).
  unfold passes, wanted. unfold_tests.
  rewrite Hlo, Hhi, Hb, Hmb, Hty, Hp, Hbed, Ht.
  destruct (price prop) as [x|]; [|done].
  destruct (bedrooms prop) as [b|]; [|done].
  destruct (property_type prop) as [t|]; [|done].
  cbn -[Qle_bool inject_Z lower String.eqb Z.ltb Z.leb].
  unfold Qltb. rewrite ?orb_false_r.
  change (nonzeroQ (inject_Z 300000)) with true.
  change (nonzeroQ (inject_Z 700000)) with true.
  change (lower "house") with "house"%string.
  rewrite <- !Qle_bool_iff, <- (Z.leb_le 2 b), <- String.eqb_eq, Z.leb_antisym.
  destruct (Qle_bool (inject_Z 300000) x), (Qle_bool x (inject_Z 700000)),
    (b <? 2), (String.eqb (lower t) "house"); simpl; intuition discriminate.
Qed.

Lemma list_filter_decide {A} (P Q : A -> Prop) `{!forall x, Decision (P x)}
    (f : A -> bool) (l : list A) :
  (forall x, Q x -> f x = true <-> P x) -> Forall Q l ->
  List.filter f l = filter P l.
Proof.
  intros Hf. induction 1 as [|x l Hx _ IH]; [done|].
  simpl. rewrite filter_cons, IH. specialize (Hf x Hx).
  destruct (f x) eqn:E; destruct (decide (P x)) as [HP|HP]; try done.
  - destruct HP. by apply Hf.
  - apply Hf in HP. discriminate HP.
Qed.

(** C8: on records whose price, bedrooms and property type are all present
    and non-zero, [filter_properties] with the criteria of the scenario (price
    300000 to 700000, at least 2 bedrooms, type "house") returns exactly
    the records with a price in [[300000, 700000]], at least 2 bedrooms and a
    type that lower-cases to "house", in their input order. *)
Theorem filter_properties_scenario (properties : list Property)
    (criteria : SearchCriteria) :
  scenario_criteria criteria ->
  Forall fields_present properties ->
  filter_properties properties criteria = filter wanted properties.
Proof.
  intros Hc Hall. rewrite filter_properties_filter.
  apply (list_filter_decide wanted fields_present); [|done].
  intros p Hp. by apply passes_scenario.
Qed.

Lemma filter_properties_scenario_witness :
  scenario_criteria austin /\ Forall fields_present candidates /\
  filter_properties candidates austin = filter wanted candidates /\
  filter_properties candidates austin
  = [listing 450000 3 "House"; listing 700000 2 "HOUSE"; listing 300000 5 "house"].
Proof.
  assert (Hc : scenario_criteria austin) by (repeat split; reflexivity).
  assert (Hall : Forall fields_present candidates)
    by (repeat constructor; reflexivity).
  split; [exact Hc|]. split; [exact Hall|].
  split; [exact (filter_properties_scenario candidates austin Hc Hall)|].
  reflexivity.
Defined.

Lemma all_tests_skipped_passes (criteria : SearchCriteria) (prop : Property) :
  all_tests_skipped criteria prop -> passes criteria prop = true.
Proof.
  intros (H1 & H2 & H3 & H4 & H5).
  unfold passes. unfold_tests.
  destruct (truthyQ (min_price criteria)), (truthyQ (max_price criteria)),
    (truthyQ (price prop)), (truthyZ (min_bedrooms criteria)),
    (truthyZ (max_bedrooms criteria)), (truthyZ (bedrooms prop)),
    (truthy_list (property_types criteria)), (truthy_str (property_type prop));
    try reflexivity; intuition discriminate.
Qed.

(** C10: in [filter_properties] a test is skipped as soon as one of its
    sides is falsy.  A record whose price is [None] or 0 passes both price
    tests whatever the criteria, one whose bedrooms is [None] or 0 passes both
    bedroom tests, one whose property type is [None] or empty passes the type
    test; a criterion that is [None], 0 or an empty list rejects no record.  A
    record all of whose tests are skipped this way is in the filtered
    output. *)
Theorem filter_properties_skips_falsy (criteria : SearchCriteria) (prop : Property) :
  (truthyQ (price prop) = false ->
     price_below_min criteria prop = false /\ price_above_max criteria prop = false) /\
  (truthyZ (bedrooms prop) = false ->
     bedrooms_below_min criteria prop = false /\
     bedrooms_above_max criteria prop = false) /\
  (truthy_str (property_type prop) = false -> type_not_listed criteria prop = false) /\
  (truthyQ (min_price criteria) = false -> price_below_min criteria prop = false) /\
  (truthyQ (max_price criteria) = false -> price_above_max criteria prop = false) /\
  (truthyZ (min_bedrooms criteria) = false -> bedrooms_below_min criteria prop = false) /\
  (truthyZ (max_bedrooms criteria) = false -> bedrooms_above_max criteria prop = false) /\
  (truthy_list (property_types criteria) = false ->
     type_not_listed criteria prop = false) /\
  (forall properties, all_tests_skipped criteria prop ->
     In prop properties -> In prop (filter_properties properties criteria)).
Proof.
  unfold_tests.
  repeat apply conj;
    try (intros ->; rewrite ?andb_false_r; repeat split; reflexivity).
  intros properties Hskip Hin. rewrite filter_properties_filter.
  apply filter_In. split; [done|]. by apply all_tests_skipped_passes.
Qed.

Lemma filter_properties_skips_falsy_witness :
  all_tests_skipped austin bare_listing /\
  In bare_listing (listing 100000 3 "house" :: bare_listing :: nil) /\
  In bare_listing
    (filter_properties (listing 100000 3 "house" :: bare_listing :: nil) austin).
Proof.
  assert (Hs : all_tests_skipped austin bare_listing).
  { repeat split; (right; reflexivity) || (left; reflexivity). }
  assert (Hin : In bare_listing (listing 100000 3 "house" :: bare_listing :: nil)).
  { right. left. reflexivity. }
  split; [exact Hs|]. split; [exact Hin|].
  exact (proj2 (proj2 (proj2 (proj2 (proj2 (proj2 (proj2 (proj2
    (filter_properties_skips_falsy austin bare_listing)))))))) _ Hs Hin).
Defined.

(** ** get_scraping_stats *)

(** C5: [get_scraping_stats] never raises; with [s] scraped properties and
    [f] failed URLs, [s + f >= 1], its success rate is the binary64 value of
    [s / (s + f) * 100]; 7 and 3 give exactly 70.0, and 0 and 0 give 0. *)
Theorem get_scraping_stats_success_rate (self : scraper) :
  let s := length (scraped_properties self) in
  let f := length (failed_urls self) in
  exists stats,
    get_scraping_stats self = Returned stats /\
    ((1 <= s + f)%nat ->
       success_rate stats
       = PrimFloat.mul (PrimFloat.div (float_of_len s) (float_of_len (s + f)))
                       100%float) /\
    (s = 7%nat -> f = 3%nat -> success_rate stats = 70%float) /\
    (s = 0%nat -> f = 0%nat -> success_rate stats = 0%float).
Proof.
  intros s f. unfold get_scraping_stats, py_truediv. fold s f.
  destruct (Z.max (Z.of_nat s + Z.of_nat f) 1 =? 0) eqn:E; [lia|].
  eexists. split; [reflexivity|]. cbn [success_rate].
  split; [|split].
  - intros Hsf. unfold float_of_len.
    replace (Z.max (Z.of_nat s + Z.of_nat f) 1) with (Z.of_nat (s + f)) by lia.
    reflexivity.
  - intros -> ->. vm_compute. reflexivity.
  - intros -> ->. vm_compute. reflexivity.
Qed.

Example get_scraping_stats_seven_of_ten :
  get_scraping_stats seven_of_ten
  = Returned {| total_properties_scraped := 7; failed_urls_count := 3;
                success_rate := 70%float;
                stats_max_concurrent := 5; stats_request_delay := 2 |}.
Proof. vm_compute. reflexivity. Qed.

Example get_scraping_stats_fresh :
  get_scraping_stats fresh_scraper
  = Returned {| total_properties_scraped := 0; failed_urls_count := 0;
                success_rate := 0%float;
                stats_max_concurrent := 5; stats_request_delay := 2 |}.
Proof. vm_compute. reflexivity. Qed.

(** ** fetch_page *)

Lemma fails_judge (r : attempt_result) :
  fails r <-> exists limited, judge r = NextAttempt limited.
Proof.
  destruct r as [status text| |msg]; simpl.
  - destruct (Z.eqb_spec status 200) as [->|Hne].
    + split; [done|]. intros [? ?]. discriminate.
    + split; [|done]. intros _. destruct (status =? 429); eauto.
  - split; eauto.
  - split; eauto.
Qed.

Lemma rate_limited_judge (r : attempt_result) :
  rate_limited r <-> judge r = NextAttempt true.
Proof.
  split.
  - intros [text ->]. reflexivity.
  - destruct r as [status text| |msg]; simpl; try discriminate.
    destruct (Z.eqb_spec status 200); [discriminate|].
    destruct (Z.eqb_spec status 429) as [->|]; [|discriminate].
    intros _. by exists text.
Qed.

Lemma attempts_made_app (tr1 tr2 : list event) :
  attempts_made (tr1 ++ tr2) = (attempts_made tr1 + attempts_made tr2)%nat.
Proof. unfold attempts_made. by rewrite List.filter_app, length_app. Qed.

Lemma backoffs_from_app (tr1 tr2 : list event) (slept : Q) :
  backoffs_from slept (tr1 ++ tr2)
  = backoffs_from slept tr1 ++ backoffs_from (pending slept tr1) tr2.
Proof.
  revert slept. induction tr1 as [|[d|u ua] tr1 IH]; intros slept; simpl.
  - done.
  - apply IH.
  - by rewrite IH.
Qed.

Lemma pending_app (tr1 tr2 : list event) (slept : Q) :
  pending slept (tr1 ++ tr2) = pending (pending slept tr1) tr2.
Proof.
  revert slept. induction tr1 as [|[d|u ua] tr1 IH]; intros slept; simpl; auto.
Qed.

Lemma backoffs_from_length (tr : list event) (slept : Q) :
  length (backoffs_from slept tr) = attempts_made tr.
Proof.
  revert slept. induction tr as [|[d|u ua] tr IH]; intros slept; simpl; auto.
  unfold attempts_made in *. simpl. by rewrite IH.
Qed.

(** The lemmas on one fetch share its delay, its oracle and its URL. *)
Section FetchPage.
Context (request_delay : Q) (session_get : nat -> attempt_result) (url : string).

Lemma fetch_attempts_cons_next attempt rest st limited :
  judge (session_get attempt) = NextAttempt limited ->
  fetch_attempts request_delay session_get url (attempt :: rest) st
  = fetch_attempts request_delay session_get url rest
      {| current_user_agent := rotate (current_user_agent st);
         events := events st ++
           attempt_events request_delay url (current_user_agent st) attempt limited |}.
Proof.
  intros Hj. simpl. rewrite Hj. unfold attempt_events, record_event, rotate.
  destruct limited; simpl; f_equal; f_equal;
    rewrite <- ?app_assoc; reflexivity.
Qed.

Lemma fetch_attempts_cons_return attempt rest st content :
  judge (session_get attempt) = ReturnContent content ->
  fetch_attempts request_delay session_get url (attempt :: rest) st
  = (Some content,
      {| current_user_agent := rotate (current_user_agent st);
         events := events st ++
           attempt_events request_delay url (current_user_agent st) attempt false |}).
Proof.
  intros Hj. simpl. rewrite Hj. unfold attempt_events, record_event, rotate.
  simpl. f_equal. f_equal. rewrite <- app_assoc. reflexivity.
Qed.

(** A run of failing attempts returns [None] after one GET per attempt. *)
Lemma fetch_attempts_all_fail attempts :
  Forall (fun a => fails (session_get a)) attempts ->
  forall st,
    (fetch_attempts request_delay session_get url attempts st).1 = None /\
    attempts_made (events (fetch_attempts request_delay session_get url attempts st).2)
    = (attempts_made (events st) + length attempts)%nat.
Proof.
  induction 1 as [|a rest Ha _ IH]; intros st.
  - simpl. split; [done|lia].
  - apply fails_judge in Ha as [limited Hj].
    rewrite (fetch_attempts_cons_next _ _ _ _ Hj).
    destruct (IH {| current_user_agent := rotate (current_user_agent st);
                    events := events st ++ attempt_events request_delay url
                      (current_user_agent st) a limited |}) as [-> ->].
    split; [done|]. cbn [events]. rewrite attempts_made_app.
    unfold attempt_events. destruct limited; cbn; lia.
Qed.

(** C3: with [retries = r >= 1] and every attempt failing (a status other
    than 200, a timeout or another exception), [fetch_page] makes exactly [r]
    GETs and returns [None]; the coroutine returns, it does not raise. *)
Theorem fetch_page_exhausted (r : Z) (st : fetch_state) :
  1 <= r ->
  (forall attempt, (attempt < Z.to_nat r)%nat -> fails (session_get attempt)) ->
  (fetch_page request_delay session_get url r st).1 = None /\
  attempts_made (events (fetch_page request_delay session_get url r st).2)
  = (attempts_made (events st) + Z.to_nat r)%nat /\
  fetch_page_outcome request_delay session_get url r = Returned None.
Proof.
  intros Hr Hfail.
  assert (Hall : Forall (fun a => fails (session_get a)) (seq 0 (Z.to_nat r))).
  { apply Forall_forall. intros a Ha. apply Hfail.
    apply elem_of_seq in Ha. lia. }
  destruct (fetch_attempts_all_fail _ Hall st)
    as [Hres Hn].
  unfold fetch_page. rewrite length_seq in Hn. split; [done|]. split; [done|].
  unfold fetch_page_outcome, fetch_page.
  by destruct (fetch_attempts_all_fail _ Hall
                 initial_fetch_state) as [-> _].
Qed.

(** Any run makes at most one GET per attempt of its budget. *)
Lemma fetch_attempts_budget attempts :
  forall st,
    (attempts_made (events (fetch_attempts request_delay session_get url attempts st).2)
     <= attempts_made (events st) + length attempts)%nat.
Proof.
  induction attempts as [|a rest IH]; intros st.
  - simpl. lia.
  - destruct (judge (session_get a)) as [content|limited] eqn:Hj.
    + rewrite (fetch_attempts_cons_return _ rest _ _ Hj). cbn [snd events].
      rewrite attempts_made_app. cbn. lia.
    + rewrite (fetch_attempts_cons_next _ _ _ _ Hj).
      etransitivity; [apply IH|]. cbn [events]. rewrite attempts_made_app.
      unfold attempt_events. destruct limited; cbn; lia.
Qed.

Lemma fetch_attempts_app_fail attempts rest :
  Forall (fun a => fails (session_get a)) attempts ->
  forall st,
    fetch_attempts request_delay session_get url (attempts ++ rest) st
    = fetch_attempts request_delay session_get url rest
        (after_failures request_delay session_get url attempts st).
Proof.
  induction 1 as [|a l Ha _ IH]; intros st; [done|].
  apply fails_judge in Ha as [limited Hj].
  rewrite <- app_comm_cons, (fetch_attempts_cons_next _ _ _ _ Hj), IH.
  simpl. unfold limited_by. by rewrite Hj.
Qed.

Lemma after_failures_snoc attempts a st :
  after_failures request_delay session_get url (attempts ++ [a]) st
  = let st' := after_failures request_delay session_get url attempts st in
    {| current_user_agent := rotate (current_user_agent st');
       events := events st' ++
         attempt_events request_delay url (current_user_agent st') a
           (limited_by (session_get a)) |}.
Proof. revert st. induction attempts as [|b l IH]; intros st; simpl; auto. Qed.

Lemma after_failures_attempts attempts :
  forall st,
    attempts_made (events (after_failures request_delay session_get url attempts st))
    = (attempts_made (events st) + length attempts)%nat.
Proof.
  induction attempts as [|a l IH]; intros st; simpl; [lia|].
  rewrite IH. cbn [events]. rewrite attempts_made_app.
  unfold attempt_events. destruct (limited_by (session_get a)); cbn; lia.
Qed.

(** Every attempt opens with its sleep and its GET, however it ends. *)
Lemma fetch_attempts_first a rest st :
  exists ua more,
    events (fetch_attempts request_delay session_get url (a :: rest) st).2
    = events st ++ [Sleep (attempt_delay request_delay a); Get url ua] ++ more.
Proof.
  assert (Hmono : forall l st0, exists more,
    events (fetch_attempts request_delay session_get url l st0).2
    = events st0 ++ more).
  { induction l as [|b l IH]; intros st0.
    - exists []. simpl. by rewrite app_nil_r.
    - destruct (judge (session_get b)) as [content|limited] eqn:Hj.
      + rewrite (fetch_attempts_cons_return _ l _ _ Hj). cbn. eauto.
      + rewrite (fetch_attempts_cons_next _ _ _ _ Hj).
        destruct (IH {| current_user_agent := rotate (current_user_agent st0);
                        events := events st0 ++ attempt_events request_delay url
                          (current_user_agent st0) b limited |}) as [more ->].
        cbn [events]. rewrite <- app_assoc. eauto. }
  exists (nth (current_user_agent st) user_agents ""%string).
  destruct (judge (session_get a)) as [content|limited] eqn:Hj.
  - rewrite (fetch_attempts_cons_return _ rest _ _ Hj). cbn. by exists [].
  - rewrite (fetch_attempts_cons_next _ _ _ _ Hj).
    destruct (Hmono rest {| current_user_agent := rotate (current_user_agent st);
                            events := events st ++ attempt_events request_delay url
                              (current_user_agent st) a limited |}) as [more ->].
    cbn [events]. unfold attempt_events. rewrite <- !app_assoc.
    by exists ((if limited then [Sleep (request_delay * 5)%Q] else []) ++ more).
Qed.

(** The sleeping time in front of GET number [a + 1], when the attempts up
    to [a] failed: the rate-limit sleep of attempt [a], if any, and the
    opening sleep of attempt [a + 1]. *)
Lemma backoff_before_next (r a : nat) st :
  events st = [] ->
  (S a < r)%nat ->
  (forall b, (b <= a)%nat -> fails (session_get b)) ->
  backoffs (events (fetch_attempts request_delay session_get url (seq 0 r) st).2)
    !! S a
  = Some ((if limited_by (session_get a) then 0 + request_delay * 5 else 0)
          + attempt_delay request_delay (S a))%Q.
Proof.
  intros Hev Hlt Hfail.
  assert (Hs : seq 0 r = seq 0 (S a) ++ S a :: seq (S (S a)) (r - S (S a))).
  { replace r with (S a + S (r - S (S a)))%nat at 1 by lia.
    rewrite seq_app. reflexivity. }
  rewrite Hs, fetch_attempts_app_fail.
  2:{ apply Forall_forall. intros b Hb. apply Hfail.
      apply elem_of_seq in Hb. lia. }
  destruct (fetch_attempts_first (S a)
              (seq (S (S a)) (r - S (S a)))
              (after_failures request_delay session_get url (seq 0 (S a)) st))
    as (ua & more & ->).
  unfold backoffs. rewrite backoffs_from_app.
  rewrite lookup_app_r; rewrite backoffs_from_length, after_failures_attempts,
    Hev, length_seq; cbn [attempts_made List.filter length]; [|lia].
  replace (S a - (0 + S a))%nat with 0%nat by lia.
  replace (seq 0 (S a)) with (seq 0 a ++ [a]) by (by rewrite seq_S).
  rewrite after_failures_snoc. cbn [events].
  rewrite pending_app. unfold attempt_events.
  destruct (limited_by (session_get a)); reflexivity.
Qed.

Lemma fetch_page_returns_at (retries a : nat) st content :
  (a < retries)%nat ->
  (forall b, (b < a)%nat -> fails (session_get b)) ->
  judge (session_get a) = ReturnContent content ->
  (fetch_page request_delay session_get url (Z.of_nat retries) st).1 = Some content.
Proof.
  intros Ha Hfail Hj. unfold fetch_page. rewrite Nat2Z.id.
  assert (Hs : seq 0 retries = seq 0 a ++ a :: seq (S a) (retries - S a)).
  { replace retries with (a + S (retries - S a))%nat at 1 by lia.
    rewrite seq_app. reflexivity. }
  rewrite Hs, fetch_attempts_app_fail.
  - by rewrite (fetch_attempts_cons_return _ _ _ _ Hj).
  - apply Forall_forall. intros b Hb. apply Hfail.
    apply elem_of_seq in Hb. lia.
Qed.

Lemma fetch_page_none_after (retries : nat) st :
  (forall b, (b < retries)%nat -> fails (session_get b)) ->
  (fetch_page request_delay session_get url (Z.of_nat retries) st).1 = None.
Proof.
  intros Hfail. unfold fetch_page. rewrite Nat2Z.id.
  apply fetch_attempts_all_fail, Forall_forall.
  intros b Hb. apply Hfail. apply elem_of_seq in Hb. lia.
Qed.

End FetchPage.

Lemma fetch_page_exhausted_witness :
  1 <= 3 /\
  (fetch_page 1 (always 503) "https://example-realestate.com/property/1" 3
     initial_fetch_state).1 = None /\
  attempts_made (events (fetch_page 1 (always 503)
     "https://example-realestate.com/property/1" 3 initial_fetch_state).2) = 3%nat.
Proof.
  split; [lia|].
  destruct (fetch_page_exhausted 1 (always 503)
              "https://example-realestate.com/property/1" 3 initial_fetch_state)
    as (H1 & H2 & _).
  - lia.
  - intros attempt _. simpl. lia.
  - split; [exact H1 | exact H2].
Defined.

(** C7, as the code has it: with a positive [request_delay], a 429 on
    attempt [a] makes the fetch sleep [request_delay * 5] more before attempt
    [a + 1] than a plain failure of attempt [a] does, so strictly longer; and
    the run stays within its budget of [retries] GETs. *)
Theorem rate_limit_backoff (request_delay : Q) (url : string) (retries : Z)
    (a : nat) (limited plain : nat -> attempt_result) :
  (0 < request_delay)%Q ->
  (S a < Z.to_nat retries)%nat ->
  (forall b, (b <= a)%nat -> fails (limited b)) ->
  (forall b, (b <= a)%nat -> fails (plain b)) ->
  rate_limited (limited a) ->
  ~ rate_limited (plain a) ->
  exists g_limited g_plain,
    backoffs (events (fetch_page request_delay limited url retries
                        initial_fetch_state).2) !! S a = Some g_limited /\
    backoffs (events (fetch_page request_delay plain url retries
                        initial_fetch_state).2) !! S a = Some g_plain /\
    (g_limited == g_plain + request_delay * 5)%Q /\
    (g_plain < g_limited)%Q /\
    (attempts_made (events (fetch_page request_delay limited url retries
                              initial_fetch_state).2) <= Z.to_nat retries)%nat.
Proof.
  intros Hpos Hlt Hl Hp H429 Hplain.
  unfold fetch_page.
  rewrite (backoff_before_next _ limited) by done.
  rewrite (backoff_before_next _ plain) by done.
  apply rate_limited_judge in H429.
  assert (Hnot : limited_by (plain a) = false).
  { unfold limited_by. destruct (judge (plain a)) as [|[|]] eqn:Hj; try done.
    by apply rate_limited_judge in Hj. }
  unfold limited_by at 1. rewrite H429, Hnot.
  eexists _, _. split; [reflexivity|]. split; [reflexivity|].
  split; [ring|]. split.
  - apply Qplus_lt_l. rewrite Qplus_0_l.
    rewrite <- (Qmult_0_l 5). apply Qmult_lt_compat_r; done.
  - pose proof (fetch_attempts_budget request_delay limited url
                  (seq 0 (Z.to_nat retries)) initial_fetch_state) as Hb.
    by rewrite length_seq in Hb.
Qed.

Lemma rate_limit_backoff_witness :
  (0 < 1)%Q /\ (1 < Z.to_nat 3)%nat /\ rate_limited (always 429 0%nat) /\
  ~ rate_limited (always 503 0%nat) /\
  exists g_limited g_plain,
    backoffs (events (fetch_page 1 (always 429) url1 3 initial_fetch_state).2)
      !! 1%nat = Some g_limited /\
    backoffs (events (fetch_page 1 (always 503) url1 3 initial_fetch_state).2)
      !! 1%nat = Some g_plain /\
    (g_limited == g_plain + 1 * 5)%Q /\
    (g_plain < g_limited)%Q /\
    (attempts_made (events (fetch_page 1 (always 429) url1 3
                              initial_fetch_state).2) <= Z.to_nat 3)%nat.
Proof.
  assert (H429 : rate_limited (always 429 0%nat)) by (by exists ""%string).
  assert (H503 : ~ rate_limited (always 503 0%nat)).
  { intros [text Ht]. discriminate Ht. }
  split; [reflexivity|]. split; [simpl; lia|]. split; [exact H429|].
  split; [exact H503|].
  apply (rate_limit_backoff 1 url1 3 0 (always 429) (always 503)).
  - reflexivity.
  - simpl; lia.
  - intros b _. simpl. lia.
  - intros b _. simpl. lia.
  - exact H429.
  - exact H503.
Defined.

(** With [request_delay = 0] the rate-limit sleep is [asyncio.sleep(0)]: the
    fetch waits no longer after a 429 than after a 503. *)
Lemma rate_limit_backoff_zero_delay :
  exists g_limited g_plain,
    backoffs (events (fetch_page 0 (always 429) url1 3 initial_fetch_state).2)
      !! 1%nat = Some g_limited /\
    backoffs (events (fetch_page 0 (always 503) url1 3 initial_fetch_state).2)
      !! 1%nat = Some g_plain /\
    ~ (g_plain < g_limited)%Q.
Proof.
  eexists _, _. split; [reflexivity|]. split; [reflexivity|].
  vm_compute. intros H. discriminate H.
Qed.

(** ** gather and fetch_multiple_pages *)

Lemma imap_pair_keys {A} (l : list A) : (imap pair l).*1 = seq 0 (length l).
Proof.
  rewrite fmap_imap.
  rewrite (imap_ext _ (fun j _ => j)) by done.
  rewrite imap_seq_0. by rewrite list_fmap_id.
Qed.

Lemma arrivals_Permutation {A} (latency : nat -> nat) (results : list A) :
  arrivals latency results ≡ₚ imap pair results.
Proof. apply merge_sort_Permutation. Qed.

(** Filing by index undoes the order of arrival. *)
Lemma filed_lookup {A} (latency : nat -> nat) (results : list A) (i : nat) :
  (list_to_map (arrivals latency results) : gmap nat A) !! i = results !! i.
Proof.
  assert (Hnd : NoDup (arrivals latency results).*1).
  { rewrite arrivals_Permutation, imap_pair_keys. apply NoDup_seq. }
  apply option_eq. intros x.
  rewrite <- elem_of_list_to_map by done.
  rewrite arrivals_Permutation, elem_of_lookup_imap. split.
  - intros (j & y & [= -> ->] & Hj). done.
  - intros Hi. by exists i, x.
Qed.

Lemma omap_lookup_seq {A} (l pre : list A) :
  omap (fun i => (pre ++ l) !! i) (seq (length pre) (length l)) = l.
Proof.
  revert pre. induction l as [|x l IH]; intros pre; [done|].
  cbn [length seq]. cbn [omap list_omap].
  rewrite list_lookup_middle by done. f_equal.
  specialize (IH (pre ++ [x])).
  rewrite <- app_assoc, length_app in IH. cbn in IH.
  by rewrite Nat.add_1_r in IH.
Qed.

(** [gather] hands back the result of task [i] in position [i], whatever the
    order in which the tasks finished. *)
Lemma gather_spec {A} (latency : nat -> nat) (results : list A) :
  gather latency results = results.
Proof.
  unfold gather.
  rewrite (list_omap_ext _ (fun i => results !! i) _ (seq 0 (length results))).
  - apply (omap_lookup_seq results []).
  - apply Forall2_same_length_lookup. split; [done|].
    intros i x y Hx Hy. assert (x = y) as -> by congruence.
    apply filed_lookup.
Qed.

Lemma fetch_multiple_pages_lookup fetch latency (urls : list string) (i : nat) :
  fetch_multiple_pages fetch latency urls !! i
  = (fun url => page_of (fetch i url)) <$> urls !! i.
Proof.
  unfold fetch_multiple_pages. rewrite gather_spec.
  rewrite list_lookup_fmap, list_lookup_imap. by destruct (urls !! i).
Qed.

(** C1: for [N] URLs [fetch_multiple_pages] returns [N] pages; page [i] is
    what the fetch of URL [i] came to, whatever the order in which the
    fetches finished: the body it returned, [None] if it returned [None],
    and [None] if it raised; the pages do not depend on the order of
    arrival, and the page of a position does not depend on what the fetch of
    another position does, raising included. *)
Theorem fetch_multiple_pages_aligned
    (fetch : nat -> string -> outcome (option string))
    (latency : nat -> nat) (urls : list string) :
  length (fetch_multiple_pages fetch latency urls) = length urls /\
  (forall i url content, urls !! i = Some url ->
     fetch i url = Returned (Some content) ->
     fetch_multiple_pages fetch latency urls !! i = Some (Some content)) /\
  (forall i url, urls !! i = Some url ->
     fetch i url = Returned None ->
     fetch_multiple_pages fetch latency urls !! i = Some None) /\
  (forall i url message, urls !! i = Some url ->
     fetch i url = Raised message ->
     fetch_multiple_pages fetch latency urls !! i = Some None) /\
  (forall latency',
     fetch_multiple_pages fetch latency' urls
     = fetch_multiple_pages fetch latency urls) /\
  (forall i fetch',
     (forall j url, j <> i -> fetch' j url = fetch j url) ->
     forall j, j <> i ->
       fetch_multiple_pages fetch' latency urls !! j
       = fetch_multiple_pages fetch latency urls !! j).
Proof.
  repeat apply conj.
  - unfold fetch_multiple_pages.
    by rewrite gather_spec, length_map, length_imap.
  - intros i url content Hi Hfetch.
    rewrite fetch_multiple_pages_lookup, Hi. simpl. by rewrite Hfetch.
  - intros i url Hi Hfetch.
    rewrite fetch_multiple_pages_lookup, Hi. simpl. by rewrite Hfetch.
  - intros i url message Hi Hraise.
    rewrite fetch_multiple_pages_lookup, Hi. simpl. by rewrite Hraise.
  - intros latency'. apply list_eq. intros i.
    by rewrite !fetch_multiple_pages_lookup.
  - intros i fetch' Hsame j Hj. rewrite !fetch_multiple_pages_lookup.
    destruct (urls !! j) as [url|]; [|done]. simpl. by rewrite Hsame.
Qed.

Example fetch_multiple_pages_partial_failure :
  fetch_multiple_pages flaky_fetch (fun i => 10 - i)%nat ["a"; "b"; "c"; "d"; "e"]
  = [Some "page of a"; None; Some "page of c"; Some "page of d"; Some "page of e"]%string.
Proof. vm_compute. reflexivity. Qed.

(** The coroutine of the class as written never raises into [gather]. *)
Lemma fetch_page_task_returns request_delay session_get i url :
  exists page, fetch_page_task request_delay session_get i url = Returned page.
Proof. unfold fetch_page_task, fetch_page_outcome. eauto. Qed.

(** ** The semaphore *)

Lemma slot_count_insert (ts : list task_state) (i : nat) (t t' : task_state) :
  ts !! i = Some t ->
  (slot_count (<[i := t']> ts) + Nat.b2n (holds_slot t)
   = slot_count ts + Nat.b2n (holds_slot t'))%nat.
Proof.
  unfold slot_count. revert i. induction ts as [|u ts IH]; intros i Hi; [done|].
  destruct i as [|i]; simpl in *.
  - injection Hi as ->. destruct (holds_slot t), (holds_slot t'); simpl; lia.
  - specialize (IH i Hi). destruct (holds_slot u); simpl; lia.
Qed.

(** The four ways a configuration moves on. *)
Ltac step_cases Hstep :=
  destruct Hstep as [c0 j Hj Hfree | c0 j a limited Hj Ha Hjudge
                    | c0 j a content Hj Ha Hjudge | c0 j a Hj Ha].

(** The task at [i] after task [j] moved: the new state at [i = j], the old
    one elsewhere. *)
Ltac at_index i j :=
  destruct (decide (j = i)) as [->|?];
    [ rewrite ?list_lookup_insert_eq by (by eapply lookup_lt_Some)
    | rewrite ?list_lookup_insert_ne by done ].

(** A batch of [n] fetches behind a semaphore that was given
    [max_concurrent], a value its constructor accepted. *)
Section Gate.
Context (max_concurrent : Z) (retries : nat)
  (session_get : nat -> nat -> attempt_result) (n : nat).
Hypothesis semaphore_made : 0 <= max_concurrent.

Lemma gate_invariant_initial :
  gate_invariant max_concurrent n (initial_config max_concurrent n).
Proof.
  unfold gate_invariant, initial_config, in_flight. cbn [tasks sem_value].
  rewrite length_replicate. repeat split; [|done].
  assert (H : length (List.filter holds_slot (replicate n Blocked)) = 0%nat).
  { clear. induction n; simpl; auto. }
  rewrite H. lia.
Qed.

Lemma gate_invariant_step (c c' : config) :
  gate_invariant max_concurrent n c ->
  step retries session_get c c' ->
  gate_invariant max_concurrent n c'.
Proof.
  intros (Hsum & Hpos & Hlen) Hstep. unfold gate_invariant, in_flight in *.
  step_cases Hstep; cbn [tasks sem_value]; rewrite length_insert;
    (split; [|split; [lia|done]]).
  - pose proof (slot_count_insert _ _ _ (InLoop 0) Hj) as H.
    unfold slot_count in H. simpl in H. lia.
  - pose proof (slot_count_insert _ _ _ (InLoop (S a)) Hj) as H.
    unfold slot_count in H. simpl in H. lia.
  - pose proof (slot_count_insert _ _ _ (Finished (Some content)) Hj) as H.
    unfold slot_count in H. simpl in H. lia.
  - pose proof (slot_count_insert _ _ _ (Finished None) Hj) as H.
    unfold slot_count in H. simpl in H. lia.
Qed.

Lemma reachable_gate_invariant (c : config) :
  reachable max_concurrent retries session_get n c ->
  gate_invariant max_concurrent n c.
Proof.
  unfold reachable. revert c. apply rtc_ind_r.
  - apply gate_invariant_initial.
  - intros c1 c2 _ Hstep IH. by eapply gate_invariant_step.
Qed.

Lemma task_sound_step (c c' : config) :
  tasks_sound retries session_get c ->
  step retries session_get c c' ->
  tasks_sound retries session_get c'.
Proof.
  intros Hsound Hstep i t.
  step_cases Hstep; cbn [tasks]; at_index i j;
    try apply Hsound; intros [= <-].
  - split; [lia|]. intros b Hb. lia.
  - destruct (Hsound i _ Hj) as [Hle Hfail]. split; [lia|].
    intros b Hb. destruct (decide (b = a)) as [->|].
    + apply fails_judge. eauto.
    + apply Hfail. lia.
  - destruct (Hsound i _ Hj) as [Hle Hfail].
    intros request_delay url st. symmetry.
    by eapply fetch_page_returns_at.
  - destruct (Hsound i _ Hj) as [Hle Hfail].
    intros request_delay url st. symmetry.
    apply fetch_page_none_after. intros b Hb. apply Hfail. lia.
Qed.

Lemma reachable_tasks_sound (c : config) :
  reachable max_concurrent retries session_get n c ->
  tasks_sound retries session_get c.
Proof.
  unfold reachable. revert c. apply rtc_ind_r.
  - intros i t Hi. apply lookup_replicate in Hi as [-> _]. exact I.
  - intros c1 c2 _ Hstep IH. by eapply task_sound_step.
Qed.

(** C2: with the semaphore sized to [max_concurrent], in every
    configuration a batch can reach, at most [max_concurrent] fetches are
    between acquire and release; when that many are, no blocked fetch gets
    in, and when fewer are, a blocked fetch can get in; a fetch that holds a
    slot keeps it until it returns what [fetch_page] returns, so for its
    whole retry loop. *)
Theorem semaphore_bounds_in_flight (c : config) :
  reachable max_concurrent retries session_get n c ->
  Z.of_nat (in_flight c) <= max_concurrent /\
  (Z.of_nat (in_flight c) = max_concurrent ->
     forall c' i, step retries session_get c c' ->
       tasks c !! i = Some Blocked -> tasks c' !! i = Some Blocked) /\
  (Z.of_nat (in_flight c) < max_concurrent ->
     forall i, tasks c !! i = Some Blocked ->
       exists c', step retries session_get c c' /\ tasks c' !! i = Some (InLoop 0)) /\
  (forall c' i attempt, step retries session_get c c' ->
     tasks c !! i = Some (InLoop attempt) ->
     (exists attempt', tasks c' !! i = Some (InLoop attempt')) \/
     (exists result, tasks c' !! i = Some (Finished result) /\
        sem_value c' = sem_value c + 1 /\
        forall request_delay url st,
          result = (fetch_page request_delay (session_get i) url
                      (Z.of_nat retries) st).1)).
Proof.
  intros Hreach.
  destruct (reachable_gate_invariant _ Hreach) as (Hsum & Hpos & Hlen).
  pose proof (reachable_tasks_sound _ Hreach) as Hsound.
  repeat apply conj.
  - lia.
  - intros Hfull c' i Hstep Hi.
    step_cases Hstep; cbn [tasks]; [lia| | |]; at_index i j; congruence.
  - intros Hroom i Hi. eexists. split.
    + apply (step_acquire _ _ c i Hi). lia.
    + cbn [tasks]. apply list_lookup_insert_eq. by eapply lookup_lt_Some.
  - intros c' i attempt Hstep Hi.
    pose proof (task_sound_step _ _ Hsound Hstep) as Hsound'.
    assert (Hlt : (i < length (tasks c))%nat) by (by eapply lookup_lt_Some).
    step_cases Hstep; cbn [tasks sem_value] in *;
      (destruct (decide (j = i)) as [->|Hne];
        [| left; exists attempt; by rewrite list_lookup_insert_ne]).
    + congruence.
    + left. exists (S a). by apply list_lookup_insert_eq.
    + right. exists (Some content). split; [by apply list_lookup_insert_eq|].
      split; [done|]. apply (Hsound' i (Finished (Some content))).
      by apply list_lookup_insert_eq.
    + right. exists None. split; [by apply list_lookup_insert_eq|].
      split; [done|]. apply (Hsound' i (Finished None)).
      by apply list_lookup_insert_eq.
Qed.

End Gate.

Lemma semaphore_bounds_in_flight_witness :
  0 <= 1 /\
  reachable 1 3 (fun _ => always 503) 2 one_in_flight /\
  Z.of_nat (in_flight one_in_flight) <= 1.
Proof.
  assert (Hreach : reachable 1 3 (fun _ => always 503) 2 one_in_flight).
  { apply rtc_once.
    apply (step_acquire 3 (fun _ => always 503) (initial_config 1 2) 0%nat).
    - reflexivity.
    - simpl. lia. }
  split; [lia|]. split; [exact Hreach|].
  apply (semaphore_bounds_in_flight 1 3 (fun _ => always 503) 2);
    [lia | exact Hreach].
Defined.

Lemma sum_list_with_insert {A} (f : A -> nat) (l : list A) (i : nat) (x y : A) :
  l !! i = Some x ->
  (sum_list_with f (<[i := y]> l) + f x = sum_list_with f l + f y)%nat.
Proof.
  revert i. induction l as [|z l IH]; intros i Hi; [done|].
  destruct i as [|i]; simpl in *.
  - injection Hi as ->. lia.
  - specialize (IH i Hi). lia.
Qed.

Lemma step_work_left (retries : nat) session_get c c' :
  step retries session_get c c' ->
  (batch_work_left retries c' < batch_work_left retries c)%nat.
Proof.
  intros Hstep. unfold batch_work_left.
  step_cases Hstep; cbn [tasks].
  - pose proof (sum_list_with_insert (work_left retries) _ _ _ (InLoop 0) Hj) as H.
    simpl in H. lia.
  - pose proof (sum_list_with_insert (work_left retries) _ _ _ (InLoop (S a)) Hj) as H.
    simpl in H. lia.
  - pose proof (sum_list_with_insert (work_left retries) _ _ _
                  (Finished (Some content)) Hj) as H.
    simpl in H. lia.
  - pose proof (sum_list_with_insert (work_left retries) _ _ _ (Finished None) Hj) as H.
    simpl in H. lia.
Qed.

Lemma nsteps_work_left (retries : nat) session_get m c c' :
  nsteps (step retries session_get) m c c' ->
  (m + batch_work_left retries c' <= batch_work_left retries c)%nat.
Proof.
  induction 1 as [c|m c1 c2 c3 Hstep _ IH]; [lia|].
  apply step_work_left in Hstep. lia.
Qed.

Lemma tasks_trichotomy (ts : list task_state) :
  (exists i attempt, ts !! i = Some (InLoop attempt)) \/
  (slot_count ts = 0%nat /\ exists i, ts !! i = Some Blocked) \/
  Forall finished ts.
Proof.
  induction ts as [|t ts IH]; [right; right; constructor|].
  destruct t as [|attempt|result].
  - destruct IH as [(i & attempt & Hi) | [[Hnone _] | Hall]].
    + left. by exists (S i), attempt.
    + right. left. split; [done|]. by exists 0%nat.
    + right. left. split; [|by exists 0%nat].
      unfold slot_count. simpl. clear -Hall.
      induction Hall as [|t ts [r ->] _ IH]; [done|]. done.
  - left. by exists 0%nat, attempt.
  - destruct IH as [(i & attempt & Hi) | [[Hnone [i Hi]] | Hall]].
    + left. by exists (S i), attempt.
    + right. left. split; [done|]. by exists (S i).
    + right. right. constructor; [by exists result|done].
Qed.

(** With at least one slot the batch always comes to its end: it cannot
    get stuck, it cannot run for ever, and at the end every fetch has
    returned what [fetch_page] returns.  This is what lets a batch be read as
    the list of the outcomes of its fetches. *)
Section Completion.
Context (max_concurrent : Z) (retries : nat)
  (session_get : nat -> nat -> attempt_result) (n : nat).
Hypothesis one_slot : 1 <= max_concurrent.

Lemma batch_progress (c : config) :
  reachable max_concurrent retries session_get n c ->
  Forall finished (tasks c) \/ exists c', step retries session_get c c'.
Proof.
  intros Hreach.
  destruct (reachable_gate_invariant max_concurrent retries session_get n
              ltac:(lia) c Hreach) as (Hsum & Hpos & Hlen).
  destruct (tasks_trichotomy (tasks c))
    as [(i & attempt & Hi) | [[Hnone [i Hi]] | Hall]]; [| |by left]; right.
  - destruct (decide (attempt < retries)%nat) as [Hlt|Hge].
    + destruct (judge (session_get i attempt)) as [content|limited] eqn:Hjudge;
        eexists.
      * apply (step_return _ _ c i attempt content Hi Hlt Hjudge).
      * apply (step_retry _ _ c i attempt limited Hi Hlt Hjudge).
    + eexists. apply (step_exhausted _ _ c i attempt Hi). lia.
  - eexists. apply (step_acquire _ _ c i Hi).
    unfold in_flight, slot_count in *. lia.
Qed.

Lemma batch_completes :
  exists c,
    reachable max_concurrent retries session_get n c /\
    length (tasks c) = n /\
    forall i t, tasks c !! i = Some t ->
      exists result, t = Finished result /\
        forall request_delay url st,
          result = (fetch_page request_delay (session_get i) url
                      (Z.of_nat retries) st).1.
Proof.
  assert (Hrun : forall m c, batch_work_left retries c = m ->
    reachable max_concurrent retries session_get n c ->
    exists c', reachable max_concurrent retries session_get n c' /\
               Forall finished (tasks c')).
  { induction m as [m IH] using lt_wf_ind. intros c Hm Hreach.
    destruct (batch_progress c Hreach) as [Hall|[c' Hstep]]; [by exists c|].
    apply (IH (batch_work_left retries c') ltac:(apply step_work_left in Hstep; lia)
             c' eq_refl).
    by eapply rtc_r. }
  destruct (Hrun _ _ eq_refl (rtc_refl _ _)) as (c & Hreach & Hall).
  exists c. split; [done|].
  destruct (reachable_gate_invariant max_concurrent retries session_get n
              ltac:(lia) c Hreach) as (_ & _ & Hlen).
  split; [done|]. intros i t Hi.
  pose proof (reachable_tasks_sound _ _ _ _ _ Hreach i t Hi) as Hsound.
  rewrite Forall_lookup in Hall. destruct (Hall i t Hi) as [result ->].
  by exists result.
Qed.

End Completion.

(** Without a slot nothing moves: a semaphore made with 0 leaves every fetch
    of the batch blocked. *)
Lemma no_slot_no_step (retries : nat) session_get (n : nat) (c : config) :
  ~ step retries session_get (initial_config 0 n) c.
Proof.
  intros Hstep.
  inversion Hstep as [c0 j Hj Hfree | c0 j a limited Hj Ha Hjudge
                     | c0 j a content Hj Ha Hjudge | c0 j a Hj Ha];
    subst; simpl in *;
    try (apply lookup_replicate in Hj as [Hj _]; discriminate Hj).
  lia.
Qed.

(** ** scrape_property_urls *)

Lemma scrape_fold (env : environment) (items : list (string * option string))
    (properties : list Property) (failed : list string) :
  fold_left (scrape_step env) items (properties, failed)
  = (properties ++ omap (kept_of env) items, failed ++ omap (failed_of env) items).
Proof.
  revert properties failed.
  induction items as [|[url page] items IH]; intros properties failed.
  - simpl. by rewrite !app_nil_r.
  - cbn [fold_left]. unfold scrape_step at 2.
    cbn [omap list_omap]. unfold kept_of at 1, failed_of at 1. cbn [fst snd].
    destruct page as [content|].
    + destruct (String.eqb content "").
      * rewrite IH. by rewrite <- app_assoc.
      * destruct (run_parse_property_page env url content) as [[p|]|e].
        -- destruct (run_validate_property env p) as [[[] errors]|e];
             rewrite IH; by rewrite <- ?app_assoc.
        -- by rewrite IH.
        -- rewrite IH. by rewrite <- app_assoc.
    + rewrite IH. by rewrite <- app_assoc.
Qed.

Lemma zip_imap_map {A B C} (f : nat -> A -> B) (g : B -> C) (l : list A) :
  zip l (map g (imap f l)) = imap (fun i x => (x, g (f i x))) l.
Proof.
  revert f. induction l as [|x l IH]; intros f; [done|].
  cbn. f_equal. apply IH.
Qed.

Lemma scrape_items (env : environment) (urls : list string) :
  zip urls (fetch_multiple_pages (run_fetch_page env) (fetch_latency env) urls)
  = imap (fun i url => (url, page_at env i url)) urls.
Proof.
  unfold fetch_multiple_pages. rewrite gather_spec. apply zip_imap_map.
Qed.

Lemma scrape_property_urls_eq (env : environment) (urls : list string)
    (self : scraper) :
  let items := imap (fun i url => (url, page_at env i url)) urls in
  scrape_property_urls env urls self
  = (omap (kept_of env) items,
     {| max_concurrent := max_concurrent self;
        request_delay := request_delay self;
        scraped_properties := scraped_properties self ++ omap (kept_of env) items;
        failed_urls := failed_urls self ++ omap (failed_of env) items |}).
Proof.
  unfold scrape_property_urls. rewrite scrape_items, scrape_fold. reflexivity.
Qed.

Lemma elem_of_omap_imap {A B C} (h : B -> option C) (k : nat -> A -> B)
    (l : list A) (x : C) :
  x ∈ omap h (imap k l) <-> exists i u, l !! i = Some u /\ h (k i u) = Some x.
Proof.
  rewrite list_elem_of_omap. split.
  - intros (y & Hy & Hh). apply elem_of_lookup_imap in Hy as (i & u & -> & Hi).
    eauto.
  - intros (i & u & Hi & Hh). exists (k i u). split; [|done].
    by apply elem_of_lookup_imap_2.
Qed.

(** C6, as the code has it: the records [scrape_property_urls] returns are
    the parsed records that passed validation, and no others; [failed_urls]
    gains the URLs whose page is [None] or empty and the URLs for which the
    parse, or the [to_dict] and validation of the parsed record, raised, and
    no others: a URL whose parse returned [None] or whose record the
    validator judged invalid is dropped without being recorded as failed. *)
Theorem scrape_property_urls_accounts (env : environment) (urls : list string)
    (self : scraper) :
  (forall p, p ∈ (scrape_property_urls env urls self).1 <->
     exists i url content errors,
       urls !! i = Some url /\ page_at env i url = Some content /\
       content <> ""%string /\
       run_parse_property_page env url content = Returned (Some p) /\
       run_validate_property env p = Returned (true, errors)) /\
  (forall u, u ∈ failed_urls (scrape_property_urls env urls self).2 <->
     u ∈ failed_urls self \/
     exists i, urls !! i = Some u /\
       (page_at env i u = None \/ page_at env i u = Some ""%string \/
        (exists content message,
           page_at env i u = Some content /\
           run_parse_property_page env u content = Raised message) \/
        (exists content p message,
           page_at env i u = Some content /\
           run_parse_property_page env u content = Returned (Some p) /\
           run_validate_property env p = Raised message))).
Proof.
  rewrite scrape_property_urls_eq. cbn [fst snd failed_urls]. split.
  - intros p. rewrite elem_of_omap_imap. unfold kept_of. cbn [fst snd]. split.
    + intros (i & url & Hi & Hk). exists i, url.
      destruct (page_at env i url) as [content|]; [|discriminate Hk].
      destruct (String.eqb_spec content ""); [discriminate Hk|].
      destruct (run_parse_property_page env url content) as [[q|]|e] eqn:Hp;
        try discriminate Hk.
      destruct (run_validate_property env q) as [[[] errors]|e] eqn:Hv;
        try discriminate Hk.
      injection Hk as ->. by exists content, errors.
    + intros (i & url & content & errors & Hi & Hpage & Hne & Hparse & Hv).
      exists i, url. split; [done|]. rewrite Hpage.
      destruct (String.eqb_spec content ""); [done|].
      by rewrite Hparse, Hv.
  - intros u. rewrite elem_of_app, elem_of_omap_imap.
    unfold failed_of. cbn [fst snd]. split.
    + intros [Hold|(i & url & Hi & Hf)]; [by left|right].
      destruct (page_at env i url) as [content|] eqn:Hpage.
      * destruct (String.eqb_spec content "") as [->|Hne].
        -- injection Hf as ->. exists i. rewrite Hpage. auto.
        -- destruct (run_parse_property_page env url content) as [[q|]|e] eqn:Hp.
           ++ destruct (run_validate_property env q) as [v|e] eqn:Hv;
                [discriminate Hf|]. injection Hf as ->. exists i. rewrite Hpage.
              split; [done|]. do 3 right. by exists content, q, e.
           ++ discriminate Hf.
           ++ injection Hf as ->. exists i. rewrite Hpage.
              split; [done|]. right. right. left. by exists content, e.
      * injection Hf as ->. exists i. rewrite Hpage. auto.
    + intros [Hold|(i & Hi & Hcase)]; [by left|right].
      exists i, u. split; [done|].
      destruct Hcase as [-> | [-> | [(content & e & -> & Hp)
                                    |(content & q & e & -> & Hp & Hv)]]];
        [done|done| |].
      * destruct (String.eqb content ""); [done|]. by rewrite Hp.
      * destruct (String.eqb content ""); [done|]. by rewrite Hp, Hv.
Qed.

(** The parse of [url1] yields no record, or a record that fails
    validation: either way [url1] is not recorded as failed. *)
Lemma scrape_property_urls_unrecorded :
  (run_parse_property_page nothing_parsed url1 "<html></html>" = Returned None /\
   (scrape_property_urls nothing_parsed [url1] fresh_scraper).1 = [] /\
   failed_urls (scrape_property_urls nothing_parsed [url1] fresh_scraper).2 = []) /\
  (run_parse_property_page untitled_listings url1 "<html></html>"
   = Returned (Some (listing 450000 3 "house")) /\
   run_validate_property untitled_listings (listing 450000 3 "house")
   = Returned (false, ["Missing required field: title";
                       "Missing required field: address"]%string) /\
   (scrape_property_urls untitled_listings [url1] fresh_scraper).1 = [] /\
   failed_urls (scrape_property_urls untitled_listings [url1] fresh_scraper).2 = []).
Proof. vm_compute. repeat split. Qed.

(** An exception of the validation is caught like one of the parse: the URL
    is recorded as failed. *)
Example scrape_property_urls_validator_raises :
  (scrape_property_urls overflowing_prices [url1] fresh_scraper).1 = [] /\
  failed_urls (scrape_property_urls overflowing_prices [url1] fresh_scraper).2
  = [url1].
Proof. vm_compute. split; reflexivity. Qed.

(** The parser the class ships always finds a record: a job yields none
    only under a parser that overrides it. *)
Lemma parse_property_page_finds (now : Z) (url content : string) :
  exists p, parse_property_page now url content = Returned (Some p) /\
            property_type p = Some "House"%string /\ source_url p = Some url.
Proof. unfold parse_property_page. eexists. by repeat split. Qed.

(** ** run_scraping_job and run_multiple_jobs *)

(** What a job returns does not depend on the manager it is run in. *)
Lemma run_scraping_job_result env job_id criteria max_properties max_concurrent self :
  (run_scraping_job env job_id criteria max_properties max_concurrent self).1
  = match job_body env criteria max_properties max_concurrent with
    | Returned (_, properties, stats) =>
        JobCompleted job_id properties (length properties) criteria stats
    | Raised e => JobFailed (Some job_id) e
    end.
Proof.
  unfold run_scraping_job.
  by destruct (job_body env criteria max_properties max_concurrent)
    as [[[s0 properties] stats]|e].
Qed.

Lemma start_job_manager envs i j self self' :
  (start_job envs i j self).1 = (start_job envs i j self').1.
Proof. unfold start_job. by rewrite !run_scraping_job_result. Qed.

Lemma run_multiple_jobs_lookup envs job_latency (jobs : list job) self (i : nat) :
  (run_multiple_jobs envs job_latency jobs self).1 !! i
  = (fun j => (start_job envs i j self).1) <$> jobs !! i.
Proof.
  unfold run_multiple_jobs. cbn [fst]. rewrite gather_spec.
  rewrite list_lookup_fmap, list_lookup_imap. by destruct (jobs !! i).
Qed.

(** C4: an exception raised in the body of [run_scraping_job] ends in the
    failed result that carries its message, and the call returns;
    [run_multiple_jobs] returns one result per job, result [i] being the one
    of job [i] whatever the order in which the jobs finished; a job that
    failed is a failed entry in its own position and changes no other
    entry. *)
Theorem job_failures_isolated (envs : nat -> environment)
    (job_latency : nat -> nat) (jobs : list job) (self : manager) :
  (forall env job_id criteria max_properties max_concurrent m e,
     job_body env criteria max_properties max_concurrent = Raised e ->
     (run_scraping_job env job_id criteria max_properties max_concurrent m).1
     = JobFailed (Some job_id) e) /\
  length (run_multiple_jobs envs job_latency jobs self).1 = length jobs /\
  (forall i j, jobs !! i = Some j ->
     (run_multiple_jobs envs job_latency jobs self).1 !! i
     = Some (start_job envs i j self).1) /\
  (forall job_latency',
     (run_multiple_jobs envs job_latency' jobs self).1
     = (run_multiple_jobs envs job_latency jobs self).1) /\
  (forall i j e, jobs !! i = Some j ->
     job_body (envs i) (search_criteria_of j) (default 100 (max_properties_of j))
       (default 5 (max_concurrent_of j)) = Raised e ->
     (run_multiple_jobs envs job_latency jobs self).1 !! i
     = Some (JobFailed (Some (job_id_of j)) e) /\
     forall envs', (forall k, k <> i -> envs' k = envs k) ->
       forall k, k <> i ->
         (run_multiple_jobs envs' job_latency jobs self).1 !! k
         = (run_multiple_jobs envs job_latency jobs self).1 !! k).
Proof.
  repeat apply conj.
  - intros env job_id criteria max_properties max_concurrent m e Hraise.
    by rewrite run_scraping_job_result, Hraise.
  - unfold run_multiple_jobs. cbn [fst].
    by rewrite gather_spec, length_map, length_imap.
  - intros i j Hi. by rewrite run_multiple_jobs_lookup, Hi.
  - intros job_latency'. apply list_eq. intros i.
    by rewrite !run_multiple_jobs_lookup.
  - intros i j e Hi Hraise. split.
    + rewrite run_multiple_jobs_lookup, Hi. cbn. unfold start_job.
      by rewrite run_scraping_job_result, Hraise.
    + intros envs' Hsame k Hk. rewrite !run_multiple_jobs_lookup.
      destruct (jobs !! k) as [jk|]; [|done]. cbn. unfold start_job.
      by rewrite Hsame.
Qed.

Lemma omap_all_None {A B} (h : A -> option B) (l : list A) :
  (forall x, x ∈ l -> h x = None) -> omap h l = [].
Proof.
  induction l as [|x l IH]; intros Hall; [done|].
  cbn [omap list_omap]. rewrite (Hall x) by left.
  apply IH. intros y Hy. apply Hall. by right.
Qed.

(** A job whose pages all arrive and whose parser finds nothing: the scraper
    object it leaves and the records it returns. *)
Lemma scrape_search_results_nothing (env : environment)
    (criteria : SearchCriteria) (max_properties : Z) (self : scraper) :
  (forall i url, exists content,
     run_fetch_page env i url = Returned (Some content) /\ content <> ""%string) ->
  (forall url content, run_parse_property_page env url content = Returned None) ->
  scrape_search_results env criteria max_properties self
  = ([], {| max_concurrent := max_concurrent self;
            request_delay := request_delay self;
            scraped_properties := scraped_properties self ++ [];
            failed_urls := failed_urls self ++ [] |}).
Proof.
  intros Hfetch Hparse. unfold scrape_search_results.
  rewrite scrape_property_urls_eq.
  rewrite !omap_all_None; [done| |].
  - intros [url page] Hin.
    apply elem_of_lookup_imap in Hin as (i & u & [= -> ->] & Hi).
    unfold failed_of, page_at. cbn [fst snd].
    destruct (Hfetch i u) as (content & -> & Hne). cbn [page_of].
    destruct (String.eqb_spec content ""); [done|]. by rewrite Hparse.
  - intros [url page] Hin. unfold kept_of. cbn [fst snd].
    destruct page as [content|]; [|done].
    destruct (String.eqb content ""); [done|]. by rewrite Hparse.
Qed.

(** C9: a job whose scraper is set up, whose pages all fetch and whose parse
    returns [None] for every page ends with status completed and no record
    (no failed URL either, and a success rate of 0), not with status failed;
    the other jobs of the same [run_multiple_jobs] call get their own
    results, the same ones they get without it. *)
Theorem empty_job_completes (envs : nat -> environment)
    (job_latency : nat -> nat) (jobs : list job) (self : manager)
    (i : nat) (j : job) :
  jobs !! i = Some j ->
  0 <= default 5 (max_concurrent_of j) ->
  (forall k url, exists content,
     run_fetch_page (envs i) k url = Returned (Some content) /\
     content <> ""%string) ->
  (forall url content,
     run_parse_property_page (envs i) url content = Returned None) ->
  (exists stats,
     (run_multiple_jobs envs job_latency jobs self).1 !! i
     = Some (JobCompleted (job_id_of j) [] 0 (search_criteria_of j) stats) /\
     total_properties_scraped stats = 0 /\ failed_urls_count stats = 0 /\
     success_rate stats = 0%float) /\
  (forall r, (run_multiple_jobs envs job_latency jobs self).1 !! i = Some r ->
     status r = completed /\ records r = []) /\
  (forall k jk, k <> i -> jobs !! k = Some jk ->
     (run_multiple_jobs envs job_latency jobs self).1 !! k
     = Some (start_job envs k jk self).1) /\
  (forall envs', (forall k, k <> i -> envs' k = envs k) ->
     forall k, k <> i ->
       (run_multiple_jobs envs' job_latency jobs self).1 !! k
       = (run_multiple_jobs envs job_latency jobs self).1 !! k).
Proof.
  intros Hi Hmc Hfetch Hparse.
  assert (Hres : (run_multiple_jobs envs job_latency jobs self).1 !! i
    = Some (JobCompleted (job_id_of j) [] 0 (search_criteria_of j)
        {| total_properties_scraped := 0; failed_urls_count := 0;
           success_rate := 0%float;
           stats_max_concurrent := default 5 (max_concurrent_of j);
           stats_request_delay := 2 |})).
  { rewrite run_multiple_jobs_lookup, Hi. cbn [fmap option_fmap option_map].
    unfold start_job. rewrite run_scraping_job_result.
    unfold job_body, new_scraper.
    destruct (Z.ltb_spec (default 5 (max_concurrent_of j)) 0) as [|_]; [lia|].
    cbn [mbind outcome_bind].
    rewrite scrape_search_results_nothing by done.
    vm_compute get_scraping_stats. reflexivity. }
  repeat apply conj.
  - eexists. split; [exact Hres|]. by repeat split.
  - intros r Hr. rewrite Hres in Hr. by injection Hr as <-.
  - intros k jk _ Hk. by rewrite run_multiple_jobs_lookup, Hk.
  - intros envs' Hsame k Hk. rewrite !run_multiple_jobs_lookup.
    destruct (jobs !! k) as [jk|]; [|done]. cbn. unfold start_job.
    by rewrite Hsame.
Qed.

Lemma empty_job_completes_witness :
  three_jobs !! 1%nat = Some {| job_id_of := "job-2"; search_criteria_of := austin;
       max_properties_of := Some 3; max_concurrent_of := Some 2 |} /\
  (forall r,
     (run_multiple_jobs three_envs (fun i => 9 - i)%nat three_jobs new_manager).1
       !! 1%nat = Some r ->
     status r = completed /\ records r = []) /\
  map (fun r => (status r, length (records r)))
    (run_multiple_jobs three_envs (fun i => 9 - i)%nat three_jobs new_manager).1
  = [(completed, 2%nat); (completed, 0%nat); (completed, 1%nat)].
Proof.
  split; [reflexivity|]. split; [|vm_compute; reflexivity].
  apply (empty_job_completes three_envs (fun i => 9 - i)%nat three_jobs
           new_manager 1 _ eq_refl).
  - simpl. lia.
  - intros k url. exists "<html></html>"%string. split; [reflexivity|done].
  - intros url content. reflexivity.
Defined.

Example run_multiple_jobs_one_failure :
  map (fun r => match r with
                | JobCompleted job_id properties _ _ _ =>
                    (job_id, completed, length properties, ""%string)
                | JobFailed job_id e => (default ""%string job_id, failed, 0%nat, e)
                end)
    (run_multiple_jobs (fun _ => demo_site) (fun i => 9 - i)%nat one_bad_job
       new_manager).1
  = [ ("job-1", completed, 2%nat, "");
      ("job-2", failed, 0%nat, "Semaphore initial value must be >= 0");
      ("job-3", completed, 1%nat, "") ]%string.
Proof. vm_compute. reflexivity. Qed.

(** * Further properties of the code *)

(** ** get_user_agent *)

(** X1: with the cursor inside the pool, [get_user_agent] hands out the
    agent under the cursor and leaves the cursor inside the pool; five calls
    in a row hand out the whole pool, from the cursor on and around, and
    bring the cursor back to where it was. *)
Theorem get_user_agent_round_robin (st : fetch_state) :
  (current_user_agent st < length user_agents)%nat ->
  user_agents !! current_user_agent st = Some (get_user_agent st).1 /\
  (current_user_agent (get_user_agent st).2 < length user_agents)%nat /\
  map (fun k => (get_user_agent (rotate_agents k st)).1) (seq 0 5)
  = drop (current_user_agent st) user_agents ++
    take (current_user_agent st) user_agents /\
  current_user_agent (rotate_agents 5 st) = current_user_agent st.
Proof.
  destruct st as [cursor tr]. cbn [current_user_agent]. intros Hin.
  do 5 (destruct cursor as [|cursor]; [repeat split; cbn; lia|]).
  simpl in Hin. lia.
Qed.

Lemma get_user_agent_round_robin_witness :
  (current_user_agent {| current_user_agent := 3; events := [] |}
   < length user_agents)%nat /\
  current_user_agent
    (rotate_agents 5 {| current_user_agent := 3; events := [] |}) = 3%nat.
Proof.
  assert (H : (current_user_agent {| current_user_agent := 3; events := [] |}
               < length user_agents)%nat) by (simpl; lia).
  split; [exact H|].
  exact (proj2 (proj2 (proj2 (get_user_agent_round_robin _ H)))).
Defined.

(** ** fetch_page *)

(** X2: the first 200 ends the fetch: when the attempts before attempt [a]
    fail and attempt [a] answers 200, [fetch_page] returns that body after
    exactly [a + 1] GETs, whatever the later attempts would have answered. *)
Theorem fetch_page_first_success (request_delay : Q)
    (session_get : nat -> attempt_result) (url : string) (retries : Z)
    (a : nat) (content : string) (st : fetch_state) :
  (a < Z.to_nat retries)%nat ->
  (forall b, (b < a)%nat -> fails (session_get b)) ->
  session_get a = Response 200 content ->
  (fetch_page request_delay session_get url retries st).1 = Some content /\
  attempts_made (events (fetch_page request_delay session_get url retries st).2)
  = (attempts_made (events st) + a + 1)%nat /\
  forall session_get',
    (forall b, (b <= a)%nat -> session_get' b = session_get b) ->
    (fetch_page request_delay session_get' url retries st).1 = Some content.
Proof.
  intros Ha Hfail H200.
  assert (Hgen : forall sg, (forall b, (b <= a)%nat -> sg b = session_get b) ->
    fetch_page request_delay sg url retries st
    = (Some content,
       {| current_user_agent :=
            rotate (current_user_agent
                      (after_failures request_delay sg url (seq 0 a) st));
          events :=
            events (after_failures request_delay sg url (seq 0 a) st) ++
            attempt_events request_delay url
              (current_user_agent
                 (after_failures request_delay sg url (seq 0 a) st)) a false |})).
  { intros sg Hsame. unfold fetch_page.
    assert (Hs : seq 0 (Z.to_nat retries)
                 = seq 0 a ++ a :: seq (S a) (Z.to_nat retries - S a)).
    { replace (Z.to_nat retries) with (a + S (Z.to_nat retries - S a))%nat
        at 1 by lia.
      rewrite seq_app. reflexivity. }
    rewrite Hs, fetch_attempts_app_fail.
    - apply fetch_attempts_cons_return. rewrite Hsame by lia.
      by rewrite H200.
    - apply Forall_forall. intros b Hb. apply elem_of_seq in Hb.
      rewrite Hsame by lia. apply Hfail. lia. }
  repeat apply conj.
  - by rewrite (Hgen session_get).
  - rewrite (Hgen session_get) by done. cbn [snd events].
    rewrite attempts_made_app, after_failures_attempts, length_seq.
    cbn. lia.
  - intros sg Hsame. by rewrite (Hgen sg).
Qed.

Lemma fetch_page_first_success_witness :
  (1 < Z.to_nat 3)%nat /\
  (fetch_page 2 second_time_lucky url1 3 initial_fetch_state).1
  = Some "<html>ok</html>"%string /\
  attempts_made
    (events (fetch_page 2 second_time_lucky url1 3 initial_fetch_state).2)
  = 2%nat.
Proof.
  split; [simpl; lia|].
  destruct (fetch_page_first_success 2 second_time_lucky url1 3 1
              "<html>ok</html>" initial_fetch_state) as (H1 & H2 & _).
  - simpl; lia.
  - intros b Hb. assert (b = 0%nat) as -> by lia. exact I.
  - reflexivity.
  - split; [exact H1 | exact H2].
Defined.

(** X3: whatever the responses, [fetch_page] makes at most [retries] GETs,
    and with [retries <= 0] it returns [None] at once: no GET, no sleep, the
    cursor where it was. *)
Theorem fetch_page_budget (request_delay : Q)
    (session_get : nat -> attempt_result) (url : string) (retries : Z)
    (st : fetch_state) :
  (attempts_made (events (fetch_page request_delay session_get url retries st).2)
   <= attempts_made (events st) + Z.to_nat retries)%nat /\
  (retries <= 0 ->
   fetch_page request_delay session_get url retries st = (None, st)).
Proof.
  split.
  - pose proof (fetch_attempts_budget request_delay session_get url
                  (seq 0 (Z.to_nat retries)) st) as H.
    by rewrite length_seq in H.
  - intros Hr. unfold fetch_page.
    replace (Z.to_nat retries) with 0%nat by lia. reflexivity.
Qed.

Lemma list_filter_length_le {A} (f : A -> bool) (l : list A) :
  (length (List.filter f l) <= length l)%nat.
Proof.
  induction l as [|x l IH]; [done|]. simpl. destruct (f x); simpl; lia.
Qed.

Lemma sleeps_made_app (tr1 tr2 : list event) :
  sleeps_made (tr1 ++ tr2) = (sleeps_made tr1 + sleeps_made tr2)%nat.
Proof. unfold sleeps_made. by rewrite List.filter_app, length_app. Qed.

Lemma paced_attempt (request_delay : Q) (url : string) (cursor a : nat)
    (limited rested : bool) (tr : list event) :
  paced rested (tr ++ attempt_events request_delay url cursor a limited)
  = paced rested tr.
Proof.
  revert rested. induction tr as [|[d|u ua] tr IH]; intros rested.
  - by destruct limited.
  - apply IH.
  - cbn [app paced]. by rewrite IH.
Qed.

Lemma fetch_attempts_paced (request_delay : Q)
    (session_get : nat -> attempt_result) (url : string) (attempts : list nat)
    (rested : bool) :
  forall st,
    paced rested (events (fetch_attempts request_delay session_get url attempts st).2)
    = paced rested (events st).
Proof.
  induction attempts as [|a rest IH]; intros st; [done|].
  destruct (judge (session_get a)) as [content|limited] eqn:Hj.
  - rewrite (fetch_attempts_cons_return _ _ _ _ rest _ _ Hj). cbn [snd events].
    apply paced_attempt.
  - rewrite (fetch_attempts_cons_next _ _ _ _ _ _ _ Hj), IH. cbn [events].
    apply paced_attempt.
Qed.

(** The GETs of a run are those counted by [requests_until_return]. *)
Lemma fetch_attempts_requests (request_delay : Q)
    (session_get : nat -> attempt_result) (url : string) (attempts : list nat) :
  forall st,
    attempts_made (events (fetch_attempts request_delay session_get url attempts st).2)
    = (attempts_made (events st) + requests_until_return session_get attempts)%nat.
Proof.
  induction attempts as [|a rest IH]; intros st.
  - cbn. lia.
  - cbn [requests_until_return].
    destruct (judge (session_get a)) as [content|limited] eqn:Hj.
    + rewrite (fetch_attempts_cons_return _ _ _ _ rest _ _ Hj). cbn [snd events].
      rewrite attempts_made_app. reflexivity.
    + rewrite (fetch_attempts_cons_next _ _ _ _ _ _ _ Hj), IH. cbn [events].
      rewrite attempts_made_app. destruct limited; cbn; lia.
Qed.

Lemma requests_until_return_le (session_get : nat -> attempt_result)
    (attempts : list nat) :
  (requests_until_return session_get attempts <= length attempts)%nat.
Proof.
  induction attempts as [|a rest IH]; cbn [requests_until_return length]; [lia|].
  destruct (judge (session_get a)); lia.
Qed.

(** One sleep opens each attempt made, and one more follows each 429. *)
Lemma fetch_attempts_sleeps (request_delay : Q)
    (session_get : nat -> attempt_result) (url : string) (attempts : list nat) :
  forall st,
    sleeps_made (events (fetch_attempts request_delay session_get url attempts st).2)
    = (sleeps_made (events st) + requests_until_return session_get attempts +
       length (List.filter (fun a => limited_by (session_get a))
                 (take (requests_until_return session_get attempts) attempts)))%nat.
Proof.
  unfold limited_by.
  induction attempts as [|a rest IH]; intros st.
  - cbn. lia.
  - cbn [requests_until_return].
    destruct (judge (session_get a)) as [content|limited] eqn:Hj.
    + rewrite (fetch_attempts_cons_return _ _ _ _ rest _ _ Hj). cbn [snd events].
      rewrite sleeps_made_app. cbn [take List.filter].
      rewrite Hj, take_0. cbn. lia.
    + rewrite (fetch_attempts_cons_next _ _ _ _ _ _ _ Hj), IH. cbn [events].
      rewrite sleeps_made_app. cbn [take List.filter].
      rewrite Hj. destruct limited; cbn; lia.
Qed.

(** X5: [fetch_page] paces its requests: every GET of a call comes straight
    after a sleep, and the call sleeps once for each GET and once more for
    each 429 it was answered, the last attempt included; so at most twice
    per GET and at most [2 * retries] times in all. *)
Theorem fetch_page_paced (request_delay : Q)
    (session_get : nat -> attempt_result) (url : string) (retries : Z)
    (cursor : nat) :
  let tr := events (fetch_page request_delay session_get url retries
                      {| current_user_agent := cursor; events := [] |}).2 in
  paced false tr = true /\
  sleeps_made tr
  = (attempts_made tr +
     length (List.filter (fun a => limited_by (session_get a))
               (seq 0 (attempts_made tr))))%nat /\
  (sleeps_made tr <= 2 * attempts_made tr)%nat /\
  (sleeps_made tr <= 2 * Z.to_nat retries)%nat.
Proof.
  intros tr. subst tr. unfold fetch_page.
  set (st := {| current_user_agent := cursor; events := [] |}).
  set (attempts := seq 0 (Z.to_nat retries)).
  pose proof (fetch_attempts_requests request_delay session_get url attempts st)
    as Hgets.
  pose proof (fetch_attempts_sleeps request_delay session_get url attempts st)
    as Hsleeps.
  pose proof (requests_until_return_le session_get attempts) as Hle.
  set (m := requests_until_return session_get attempts) in *.
  assert (Htake : take m attempts = seq 0 m).
  { unfold attempts in *. rewrite length_seq in Hle.
    rewrite take_seq. f_equal. lia. }
  rewrite Htake in Hsleeps. cbn [events st] in Hgets, Hsleeps.
  change (attempts_made []) with 0%nat in Hgets.
  change (sleeps_made []) with 0%nat in Hsleeps.
  cbn [Nat.add] in Hgets, Hsleeps. rewrite Hgets, Hsleeps.
  assert (Hfew : (length (List.filter (fun a => limited_by (session_get a))
                            (seq 0 m)) <= m)%nat).
  { etransitivity; [apply list_filter_length_le|]. by rewrite length_seq. }
  unfold attempts in Hle. rewrite length_seq in Hle.
  repeat apply conj; [|done|lia|lia].
  by rewrite fetch_attempts_paced.
Qed.

(** ** fetch_multiple_pages *)

Lemma successful_pages (results : list (outcome (option string))) :
  length (List.filter is_successful results)
  = length (filter is_Some (map page_of results)).
Proof.
  induction results as [|[[content|]|e] results IH]; [done| | |];
    cbn [List.filter is_successful map page_of]; rewrite filter_cons;
    (destruct (decide _) as [Hs|Hs]; cbn [length];
      [| try (destruct Hs; by eexists)]);
    try (by destruct Hs); by rewrite ?IH.
Qed.

(** X6: the figure [fetch_multiple_pages] logs as [successful] is the number
    of pages it returns that are not [None] (an empty body counts), so at
    most the number of URLs. *)
Theorem fetch_multiple_pages_successful
    (fetch : nat -> string -> outcome (option string))
    (latency : nat -> nat) (urls : list string) :
  successful_count fetch latency urls
  = length (filter is_Some (fetch_multiple_pages fetch latency urls)) /\
  (successful_count fetch latency urls <= length urls)%nat.
Proof.
  unfold successful_count, fetch_multiple_pages. rewrite successful_pages.
  split; [done|].
  etransitivity; [apply length_filter|].
  by rewrite length_map, gather_spec, length_imap.
Qed.

(** ** scrape_property_urls *)

Lemma omap_disjoint_length {A B C} (h : A -> option B) (k : A -> option C)
    (l : list A) :
  (forall x, h x = None \/ k x = None) ->
  (length (omap h l) + length (omap k l) <= length l)%nat.
Proof.
  intros Hd. induction l as [|x l IH]; [done|].
  cbn [omap list_omap length].
  destruct (Hd x) as [-> | ->]; [destruct (k x)|destruct (h x)];
    cbn [length]; lia.
Qed.

Lemma kept_or_failed (env : environment) (item : string * option string) :
  kept_of env item = None \/ failed_of env item = None.
Proof.
  unfold kept_of, failed_of. destruct item.2 as [content|]; [|by left].
  destruct (String.eqb content ""); [by left|].
  destruct (run_parse_property_page env item.1 content) as [[p|]|e]; auto.
  destruct (run_validate_property env p) as [[[] errors]|e]; auto.
Qed.

(** X7: a call of [scrape_property_urls] appends the records it returns to
    [scraped_properties], only ever adds to [failed_urls], counts no URL
    both as a record and as failed, and leaves the settings of the scraper
    alone. *)
Theorem scrape_property_urls_bookkeeping (env : environment)
    (urls : list string) (self : scraper) :
  let after := (scrape_property_urls env urls self).2 in
  let returned := (scrape_property_urls env urls self).1 in
  scraped_properties after = scraped_properties self ++ returned /\
  failed_urls self `prefix_of` failed_urls after /\
  (length returned + length (failed_urls after)
   <= length urls + length (failed_urls self))%nat /\
  max_concurrent after = max_concurrent self /\
  request_delay after = request_delay self.
Proof.
  rewrite scrape_property_urls_eq. cbn. repeat split.
  - by eexists.
  - rewrite length_app.
    pose proof (omap_disjoint_length (kept_of env) (failed_of env)
                  (imap (fun i url => (url, page_at env i url)) urls)
                  (kept_or_failed env)) as H.
    rewrite length_imap in H. lia.
Qed.

(** ** parse_property_page *)

Lemma str_app_cons (c : ascii) (s t : string) :
  String c s +:+ t = String c (s +:+ t).
Proof. reflexivity. Qed.

Lemma str_app_empty (s : string) : s +:+ "" = s.
Proof. induction s as [|c s IH]; [done|]. by rewrite str_app_cons, IH. Qed.

Lemma str_app_snoc (acc s : string) (c : ascii) :
  (acc +:+ String c "") +:+ s = acc +:+ String c s.
Proof.
  induction acc as [|a acc IH]; [done|]. by rewrite !str_app_cons, IH.
Qed.

Lemma last_segment_no_slash (seg acc : string) :
  contains_slash seg = false -> last_segment acc seg = acc +:+ seg.
Proof.
  revert acc. induction seg as [|c seg IH]; intros acc Hno.
  - simpl. by rewrite str_app_empty.
  - simpl in Hno. apply orb_false_iff in Hno as [Hc Hseg].
    simpl. rewrite Hc, IH by done. apply str_app_snoc.
Qed.

Lemma last_segment_after_slash (pre seg acc : string) :
  contains_slash seg = false ->
  last_segment acc (pre +:+ "/" +:+ seg) = seg.
Proof.
  intros Hno. revert acc. induction pre as [|c pre IH]; intros acc.
  - change ("" +:+ "/" +:+ seg) with (String "/" seg). simpl.
    by rewrite last_segment_no_slash.
  - rewrite str_app_cons. simpl. destruct (Ascii.eqb c "/"); apply IH.
Qed.

Lemma contains_slash_app (pre seg : string) :
  contains_slash (pre +:+ "/" +:+ seg) = true.
Proof.
  induction pre as [|c pre IH]; [done|].
  rewrite str_app_cons. simpl. rewrite IH. apply orb_true_r.
Qed.

(** X8: the record the shipped [parse_property_page] makes is named after
    the last path segment of the URL: [async_] and what follows the last
    slash (nothing, for a URL that ends in a slash), and [async_unknown] for
    a URL without any slash. *)
Theorem parse_property_page_id (now : Z) (url content : string) :
  exists p,
    parse_property_page now url content = Returned (Some p) /\
    source_url p = Some url /\
    (contains_slash url = false -> id p = Some "async_unknown"%string) /\
    (forall pre seg, url = pre +:+ "/" +:+ seg -> contains_slash seg = false ->
       id p = Some ("async_" +:+ seg) /\
       title p = Some ("Async Scraped Property " +:+ seg)).
Proof.
  unfold parse_property_page. eexists. split; [reflexivity|].
  cbn [source_url id title]. split; [done|]. split.
  - by intros ->.
  - intros pre seg -> Hno.
    by rewrite contains_slash_app, last_segment_after_slash.
Qed.

(** X9: every record of the shipped [parse_property_page] has a price from
    500000 to 999999, 2 to 5 bedrooms and 1000 to 2999 square feet, the type
    "House" and every required field, so no test of [filter_properties] is
    skipped on it for a missing field. *)
Theorem parse_property_page_ranges (now : Z) (url content : string) :
  exists p x b a,
    parse_property_page now url content = Returned (Some p) /\
    price p = Some (inject_Z x) /\ 500000 <= x <= 999999 /\
    bedrooms p = Some b /\ 2 <= b <= 5 /\
    square_feet p = Some (inject_Z a) /\ 1000 <= a <= 2999 /\
    property_type p = Some "House"%string /\
    fields_present p /\
    missing_required_fields p = [].
Proof.
  unfold parse_property_page.
  set (n := Z.of_nat (String.length content)).
  eexists _, (500000 + n mod 500000), (2 + n mod 4), (1000 + n mod 2000).
  split; [reflexivity|]. cbn [price bedrooms square_feet property_type].
  pose proof (Z.mod_pos_bound n 500000 ltac:(lia)).
  pose proof (Z.mod_pos_bound n 4 ltac:(lia)).
  pose proof (Z.mod_pos_bound n 2000 ltac:(lia)).
  repeat (split; [done || lia|]).
  assert (Hp : nonzeroQ (inject_Z (500000 + n mod 500000)) = true).
  { unfold nonzeroQ. apply negb_true_iff. apply not_true_iff_false.
    rewrite Qeq_bool_iff. unfold Qeq. cbn. lia. }
  assert (Hb : nonzeroZ (2 + n mod 4) = true).
  { unfold nonzeroZ. apply negb_true_iff, Z.eqb_neq. lia. }
  split.
  - unfold fields_present. cbn [price bedrooms property_type truthyQ truthyZ].
    by rewrite Hp, Hb.
  - unfold missing_required_fields. cbn [title price address truthyQ].
    rewrite Hp. cbn [truthy_str].
    destruct (contains_slash url); reflexivity.
Qed.

(** ** scrape_search_results *)

(** X10: [scrape_search_results] asks for the pages 1, 2, ... up to
    [max_properties], and never for more than 50 of them; for
    [max_properties <= 0] it asks for none. *)
Theorem property_urls_count (max_properties : Z) :
  length (property_urls max_properties) = Z.to_nat (Z.min max_properties 50) /\
  (length (property_urls max_properties) <= 50)%nat /\
  (max_properties <= 0 -> property_urls max_properties = []) /\
  (forall k, (k < length (property_urls max_properties))%nat ->
     property_urls max_properties !! k
     = Some (base_url +:+ pretty (Z.of_nat k + 1))).
Proof.
  unfold property_urls.
  assert (Hlen : length (map (fun i : Z => base_url +:+ pretty i)
                   (seqZ 1 (Z.min (max_properties + 1) 51 - 1)))
                 = Z.to_nat (Z.min max_properties 50)).
  { rewrite length_map, length_seqZ. f_equal. lia. }
  rewrite Hlen. repeat apply conj.
  - done.
  - lia.
  - intros Hle. apply nil_length_inv. rewrite Hlen. lia.
  - intros k Hk. rewrite list_lookup_fmap, lookup_seqZ_lt by lia.
    by rewrite (Z.add_comm 1).
Qed.

(** X11: no page is asked for twice. *)
Theorem property_urls_NoDup (max_properties : Z) :
  NoDup (property_urls max_properties).
Proof.
  unfold property_urls. apply NoDup_fmap_2; [|apply NoDup_seqZ].
  intros i j Hij. apply (inj (String.app base_url)) in Hij.
  by apply (inj pretty) in Hij.
Qed.

Lemma omap_length_le {A B} (h : A -> option B) (l : list A) :
  (length (omap h l) <= length l)%nat.
Proof.
  induction l as [|x l IH]; [done|]. cbn [omap list_omap].
  destruct (h x); cbn [length]; lia.
Qed.

Lemma property_urls_length_le (max_properties : Z) :
  (length (property_urls max_properties) <= 50)%nat.
Proof.
  unfold property_urls. rewrite length_map, length_seqZ. lia.
Qed.

(** X12: what [scrape_search_results] returns are records this call
    scraped and that pass [filter_properties] for the criteria; one call
    scrapes at most 50 records, whatever [max_properties]. *)
Theorem scrape_search_results_bounds (env : environment)
    (search_criteria : SearchCriteria) (max_properties : Z) (self : scraper) :
  let returned := (scrape_search_results env search_criteria max_properties self).1 in
  let after := (scrape_search_results env search_criteria max_properties self).2 in
  exists scraped,
    scraped_properties after = scraped_properties self ++ scraped /\
    (length scraped <= 50)%nat /\
    returned `sublist_of` scraped /\
    (forall p, p ∈ returned <-> p ∈ scraped /\ passes search_criteria p = true).
Proof.
  unfold scrape_search_results. rewrite scrape_property_urls_eq.
  cbn [fst snd scraped_properties].
  set (scraped := omap (kept_of env) _). exists scraped.
  split; [done|]. split.
  - unfold scraped. etransitivity; [apply omap_length_le|].
    rewrite length_imap. apply property_urls_length_le.
  - rewrite filter_properties_filter. split.
    + clear. induction scraped as [|p ps IH]; [done|]. simpl.
      destruct (passes search_criteria p); by constructor.
    + intros p. rewrite !list_elem_of_In, filter_In. done.
Qed.

(** ** filter_properties *)

Lemma list_filter_idemp {A} (f : A -> bool) (l : list A) :
  List.filter f (List.filter f l) = List.filter f l.
Proof.
  induction l as [|x l IH]; [done|]. simpl.
  destruct (f x) eqn:E; simpl; by rewrite ?E, IH.
Qed.

Lemma list_filter_comm {A} (f g : A -> bool) (l : list A) :
  List.filter f (List.filter g l) = List.filter g (List.filter f l).
Proof.
  induction l as [|x l IH]; [done|]. simpl.
  destruct (f x) eqn:Ef, (g x) eqn:Eg; simpl; by rewrite ?Ef, ?Eg, IH.
Qed.

(** X13: filtering twice with the same criteria changes nothing more, and
    two criteria can be applied in either order. *)
Theorem filter_properties_composes (properties : list Property)
    (criteria criteria' : SearchCriteria) :
  filter_properties (filter_properties properties criteria) criteria
  = filter_properties properties criteria /\
  filter_properties (filter_properties properties criteria) criteria'
  = filter_properties (filter_properties properties criteria') criteria.
Proof.
  rewrite !filter_properties_filter. split.
  - apply list_filter_idemp.
  - apply list_filter_comm.
Qed.

(** Criteria with every bound [None] or 0 and no property type. *)
Lemma unset_criteria_skip (criteria : SearchCriteria) (prop : Property) :
  truthyQ (min_price criteria) = false -> truthyQ (max_price criteria) = false ->
  truthyZ (min_bedrooms criteria) = false -> truthyZ (max_bedrooms criteria) = false ->
  property_types criteria = [] ->
  passes criteria prop = true.
Proof.
  intros H1 H2 H3 H4 H5. apply all_tests_skipped_passes.
  unfold all_tests_skipped. rewrite H1, H2, H3, H4, H5.
  repeat split; by left.
Qed.

(** X14: criteria that set no bound (each [None] or 0) and list no property
    type return every record, in order: the location and the bathroom bounds
    filter nothing. *)
Theorem filter_properties_unset (properties : list Property)
    (criteria : SearchCriteria) :
  truthyQ (min_price criteria) = false -> truthyQ (max_price criteria) = false ->
  truthyZ (min_bedrooms criteria) = false -> truthyZ (max_bedrooms criteria) = false ->
  property_types criteria = [] ->
  filter_properties properties criteria = properties.
Proof.
  intros H1 H2 H3 H4 H5. rewrite filter_properties_filter.
  induction properties as [|p ps IH]; [done|]. simpl.
  by rewrite unset_criteria_skip, IH.
Qed.

Lemma filter_properties_unset_witness :
  property_types any_home = [] /\
  filter_properties candidates any_home = candidates.
Proof.
  split; [reflexivity|].
  by apply (filter_properties_unset candidates any_home).
Defined.

(** X15: [filter_properties] reads the criteria only through the two price
    bounds, the two bedroom bounds and the property types in lower case: the
    location, the bathroom bounds and [max_pages] never filter anything, and
    the case of the listed types does not matter. *)
Theorem filter_properties_reads (properties : list Property)
    (criteria criteria' : SearchCriteria) :
  min_price criteria = min_price criteria' ->
  max_price criteria = max_price criteria' ->
  min_bedrooms criteria = min_bedrooms criteria' ->
  max_bedrooms criteria = max_bedrooms criteria' ->
  map lower (property_types criteria) = map lower (property_types criteria') ->
  filter_properties properties criteria = filter_properties properties criteria'.
Proof.
  intros H1 H2 H3 H4 H5. rewrite !filter_properties_filter.
  assert (Ht : truthy_list (property_types criteria)
               = truthy_list (property_types criteria')).
  { destruct (property_types criteria), (property_types criteria');
      try done; discriminate H5. }
  assert (Hsame : forall p, passes criteria p = passes criteria' p).
  { intros p. unfold passes. unfold_tests. by rewrite H1, H2, H3, H4, H5, Ht. }
  induction properties as [|p ps IH]; [done|]. simpl. by rewrite Hsame, IH.
Qed.

Lemma filter_properties_reads_witness :
  map lower (property_types austin) = map lower (property_types austin_shouting) /\
  filter_properties candidates austin = filter_properties candidates austin_shouting.
Proof.
  split; [reflexivity|].
  by apply (filter_properties_reads candidates austin austin_shouting).
Defined.

(** ** run_scraping_job *)

(** X16: however a job ends, [run_scraping_job] appends its result, with
    the id of the job, to the history, once; the job is not among the active
    scrapers afterwards, and the active scrapers of other ids are left
    alone. *)
Theorem run_scraping_job_bookkeeping (env : environment) (job_id : string)
    (search_criteria : SearchCriteria) (max_properties max_concurrent : Z)
    (self : manager) :
  let result :=
    (run_scraping_job env job_id search_criteria max_properties max_concurrent self).1 in
  let after :=
    (run_scraping_job env job_id search_criteria max_properties max_concurrent self).2 in
  completed_jobs after = completed_jobs self ++ [result] /\
  stored_job_id result = Some job_id /\
  active_scrapers after !! job_id = None /\
  (forall other, other <> job_id ->
     active_scrapers after !! other = active_scrapers self !! other).
Proof.
  unfold run_scraping_job.
  destruct (job_body env search_criteria max_properties max_concurrent)
    as [[[s0 properties] stats]|e]; cbn [fst snd completed_jobs active_scrapers];
    repeat split; try apply lookup_delete_eq;
    intros other Hother; rewrite lookup_delete_ne by done;
    by rewrite ?lookup_insert_ne.
Qed.

(** X17: a job given a negative [max_concurrent] fails before anything is
    fetched, whatever the site would answer, and its result carries the
    message of the semaphore's [ValueError]. *)
Theorem run_scraping_job_negative_concurrency (env : environment)
    (job_id : string) (search_criteria : SearchCriteria)
    (max_properties max_concurrent : Z) (self : manager) :
  max_concurrent < 0 ->
  (run_scraping_job env job_id search_criteria max_properties max_concurrent self).1
  = JobFailed (Some job_id) "Semaphore initial value must be >= 0".
Proof.
  intros Hneg. rewrite run_scraping_job_result. unfold job_body, new_scraper.
  destruct (Z.ltb_spec max_concurrent 0); [done|lia].
Qed.

Lemma run_scraping_job_negative_concurrency_witness :
  -1 < 0 /\
  (run_scraping_job demo_site "job-7" austin 10 (-1) new_manager).1
  = JobFailed (Some "job-7"%string) "Semaphore initial value must be >= 0".
Proof.
  split; [lia|].
  apply (run_scraping_job_negative_concurrency demo_site "job-7" austin 10 (-1)).
  lia.
Defined.

(** X18: the result of a completed job is consistent: the count is the
    number of records, each record passes the filter of the job's own
    criteria, the stats count what was scraped before the filter (so at
    least the records returned) and, with the failed URLs, no more than the
    50 pages a job asks for at most; the semaphore was given a value that is
    not negative. *)
Theorem run_scraping_job_completed (env : environment) (job_id : string)
    (search_criteria : SearchCriteria) (max_properties concurrency : Z)
    (self : manager) (id' : string) (properties : list Property)
    (property_count : nat) (criteria' : SearchCriteria) (stats : scraping_stats) :
  (run_scraping_job env job_id search_criteria max_properties concurrency self).1
  = JobCompleted id' properties property_count criteria' stats ->
  id' = job_id /\ criteria' = search_criteria /\
  property_count = length properties /\
  (forall p, p ∈ properties -> passes search_criteria p = true) /\
  Z.of_nat property_count <= total_properties_scraped stats /\
  total_properties_scraped stats + failed_urls_count stats <= 50 /\
  0 <= failed_urls_count stats /\
  stats_max_concurrent stats = concurrency /\ 0 <= concurrency.
Proof.
  rewrite run_scraping_job_result. unfold job_body, new_scraper.
  destruct (Z.ltb_spec concurrency 0) as [|Hmc]; [done|].
  cbn [mbind outcome_bind].
  unfold scrape_search_results. rewrite scrape_property_urls_eq.
  set (items := imap _ (property_urls max_properties)).
  cbn [scraped_properties failed_urls app].
  unfold get_scraping_stats, py_truediv.
  cbn [scraped_properties failed_urls max_concurrent request_delay].
  destruct (Z.max _ 1 =? 0) eqn:E; [lia|]. cbn [mbind outcome_bind mret outcome_ret].
  intros [= <- <- <- <- <-].
  cbn [total_properties_scraped failed_urls_count stats_max_concurrent].
  pose proof (omap_disjoint_length (kept_of env) (failed_of env) items
                (kept_or_failed env)) as Hbins.
  unfold items in Hbins at 3. rewrite length_imap in Hbins.
  pose proof (property_urls_length_le max_properties) as H50.
  rewrite filter_properties_filter.
  repeat apply conj; try done; try lia.
  - intros p Hp. apply list_elem_of_In, filter_In in Hp. tauto.
  - pose proof (list_filter_length_le (passes search_criteria)
                  (omap (kept_of env) items)).
    lia.
Qed.

Lemma run_scraping_job_completed_witness :
  (run_scraping_job demo_site "job-7" austin 1 5 new_manager).1
  = JobCompleted "job-7" [demo_record] 1 austin demo_stats /\
  (forall p, p ∈ [demo_record] -> passes austin p = true) /\
  Z.of_nat 1 <= total_properties_scraped demo_stats.
Proof.
  assert (H : (run_scraping_job demo_site "job-7" austin 1 5 new_manager).1
              = JobCompleted "job-7" [demo_record] 1 austin demo_stats)
    by (vm_compute; reflexivity).
  split; [exact H|].
  destruct (run_scraping_job_completed _ _ _ _ _ _ _ _ _ _ _ H)
    as (_ & _ & _ & Hpass & Hcount & _).
  split; [exact Hpass | exact Hcount].
Defined.

(** What a job does to the manager, in one piece. *)
Lemma start_job_state (envs : nat -> environment) (i : nat) (j : job)
    (self : manager) :
  (start_job envs i j self).2
  = {| active_scrapers := delete (job_id_of j) (active_scrapers self);
       completed_jobs := completed_jobs self ++ [(start_job envs i j self).1] |}.
Proof.
  unfold start_job, run_scraping_job.
  destruct (job_body _ _ _ _) as [[[s0 properties] stats]|e]; cbn [fst snd];
    by rewrite ?delete_insert_eq.
Qed.

Lemma finish_jobs_state (envs : nat -> environment) (self0 : manager)
    (l : list (nat * job)) :
  forall self,
    foldl (fun m x => (start_job envs x.1 x.2 m).2) self l
    = {| active_scrapers :=
           foldl (fun a x => delete (job_id_of x.2) a) (active_scrapers self) l;
         completed_jobs :=
           completed_jobs self ++
           map (fun x => (start_job envs x.1 x.2 self0).1) l |}.
Proof.
  induction l as [|x l IH]; intros self.
  - cbn. rewrite app_nil_r. by destruct self.
  - cbn [foldl map]. rewrite IH, start_job_state. cbn [active_scrapers completed_jobs].
    rewrite <- app_assoc. cbn [app].
    by rewrite (start_job_manager envs x.1 x.2 self self0).
Qed.

Lemma deleted_jobs_lookup (l : list (nat * job)) (id : string) :
  forall active : gmap string scraper,
    foldl (fun a x => delete (job_id_of x.2) a) active l !! id
    = if decide (Exists (fun x => job_id_of x.2 = id) l) then None
      else active !! id.
Proof.
  induction l as [|x l IH]; intros active.
  - cbn. destruct (decide _) as [H|_]; [by apply Exists_nil in H|done].
  - cbn [foldl]. rewrite IH.
    destruct (decide (Exists _ l)) as [Hl|Hl].
    + rewrite decide_True; [done|by right].
    + destruct (decide (job_id_of x.2 = id)) as [Hx|Hx].
      * rewrite decide_True by (by left). subst id. apply lookup_delete_eq.
      * rewrite decide_False.
        -- by apply lookup_delete_ne.
        -- intros H. apply Exists_cons in H as [?|?]; done.
Qed.

(** X19: after [run_multiple_jobs] the history has gained the results of
    the call, one entry per job, in the order the jobs finished (so a
    permutation of the list returned); no job of the call is left among the
    active scrapers, and the active scrapers of other ids are untouched. *)
Theorem run_multiple_jobs_history (envs : nat -> environment)
    (job_latency : nat -> nat) (jobs : list job) (self : manager) :
  let results := (run_multiple_jobs envs job_latency jobs self).1 in
  let after := (run_multiple_jobs envs job_latency jobs self).2 in
  exists finished,
    completed_jobs after = completed_jobs self ++ finished /\
    finished ≡ₚ results /\
    length (completed_jobs after) = (length (completed_jobs self) + length jobs)%nat /\
    (forall j, j ∈ jobs -> active_scrapers after !! job_id_of j = None) /\
    (forall id, (forall j, j ∈ jobs -> job_id_of j <> id) ->
       active_scrapers after !! id = active_scrapers self !! id).
Proof.
  unfold run_multiple_jobs. cbn [fst snd].
  rewrite (finish_jobs_state envs self), gather_spec.
  cbn [completed_jobs active_scrapers].
  set (g := fun x : nat * job => (start_job envs x.1 x.2 self).1).
  assert (Hres : map job_result_of
                   (imap (fun i j => Returned (start_job envs i j self).1) jobs)
                 = map g (imap pair jobs)).
  { apply list_eq. intros i.
    rewrite !list_lookup_fmap, !list_lookup_imap. by destruct (jobs !! i). }
  assert (Hin : forall id,
    Exists (fun x : nat * job => job_id_of x.2 = id) (arrivals job_latency jobs)
    <-> exists j, j ∈ jobs /\ job_id_of j = id).
  { intros id. rewrite Exists_exists. split.
    - intros ([i j] & Hx & Hid). rewrite arrivals_Permutation in Hx.
      apply elem_of_lookup_imap in Hx as (i' & j' & [= -> ->] & Hj).
      exists j'. split; [by eapply list_elem_of_lookup_2|done].
    - intros (j & Hj & Hid). apply list_elem_of_lookup in Hj as [i Hi].
      exists (i, j). split; [|done]. rewrite arrivals_Permutation.
      by apply (elem_of_lookup_imap_2 pair). }
  exists (map g (arrivals job_latency jobs)). repeat apply conj.
  - done.
  - rewrite Hres. by rewrite arrivals_Permutation.
  - rewrite length_app, length_map. f_equal.
    by rewrite arrivals_Permutation, length_imap.
  - intros j Hj. rewrite deleted_jobs_lookup.
    rewrite decide_True; [done|]. apply Hin. by exists j.
  - intros id Hid. rewrite deleted_jobs_lookup.
    rewrite decide_False; [done|]. rewrite Hin. intros (j & Hj & Hjid).
    by apply (Hid j).
Qed.

(** ** get_job_status and get_all_jobs_status *)

Lemma find_app {A} (f : A -> bool) (l1 l2 : list A) :
  List.find f (l1 ++ l2)
  = match List.find f l1 with Some x => Some x | None => List.find f l2 end.
Proof.
  induction l1 as [|x l1 IH]; [done|]. simpl. by destruct (f x).
Qed.

(** X20: once a job has run, [get_job_status] answers with a stored result
    for its id, and with the oldest one: the result of this run if the id is
    new to the history, the result of the first run with this id otherwise -
    a job run again under the same id keeps reporting its first result. *)
Theorem get_job_status_after_run (env : environment) (job_id : string)
    (search_criteria : SearchCriteria) (max_properties concurrency : Z)
    (self : manager) :
  let result :=
    (run_scraping_job env job_id search_criteria max_properties concurrency self).1 in
  let after :=
    (run_scraping_job env job_id search_criteria max_properties concurrency self).2 in
  get_job_status job_id after
  = ReportResult
      (default result (List.find (has_job_id job_id) (completed_jobs self))).
Proof.
  unfold run_scraping_job, get_job_status.
  destruct (job_body env search_criteria max_properties concurrency)
    as [[[s0 properties] stats]|e]; cbn [fst snd completed_jobs active_scrapers];
    rewrite lookup_delete_eq, find_app; cbn [List.find has_job_id stored_job_id];
    rewrite String.eqb_refl; by destruct (List.find _ (completed_jobs self)).
Qed.

(** X21: running a job changes the answer of [get_job_status] for no other
    id. *)
Theorem get_job_status_other (env : environment) (job_id other : string)
    (search_criteria : SearchCriteria) (max_properties concurrency : Z)
    (self : manager) :
  other <> job_id ->
  get_job_status other
    (run_scraping_job env job_id search_criteria max_properties concurrency self).2
  = get_job_status other self.
Proof.
  intros Hother. unfold run_scraping_job, get_job_status.
  assert (Hne : String.eqb job_id other = false) by (by apply String.eqb_neq).
  destruct (job_body env search_criteria max_properties concurrency)
    as [[[s0 properties] stats]|e]; cbn [fst snd completed_jobs active_scrapers];
    rewrite lookup_delete_ne, ?lookup_insert_ne, find_app by done;
    cbn [List.find has_job_id stored_job_id]; rewrite Hne;
    by destruct (List.find _ (completed_jobs self)).
Qed.

Lemma get_job_status_other_witness :
  "job-8"%string <> "job-7"%string /\
  get_job_status "job-8" (run_scraping_job demo_site "job-7" austin 1 5 new_manager).2
  = ReportNotFound "job-8".
Proof.
  assert (H : "job-8"%string <> "job-7"%string) by discriminate.
  split; [exact H|].
  rewrite (get_job_status_other demo_site "job-7" "job-8" austin 1 5 new_manager H).
  reflexivity.
Defined.

(** X22: after a job has run, [get_all_jobs_status] counts one more
    completed job; its recent list is the tail of the history, of at most
    five entries, and ends with the result of that job; the id of the job is
    not among the active ids, and no other id has left them. *)
Theorem get_all_jobs_status_after_run (env : environment) (job_id : string)
    (search_criteria : SearchCriteria) (max_properties concurrency : Z)
    (self : manager) :
  let result :=
    (run_scraping_job env job_id search_criteria max_properties concurrency self).1 in
  let after :=
    (run_scraping_job env job_id search_criteria max_properties concurrency self).2 in
  let overview := get_all_jobs_status after in
  completed_jobs_count overview = S (completed_jobs_count (get_all_jobs_status self)) /\
  recent_completed overview `suffix_of` completed_jobs after /\
  length (recent_completed overview)
  = Nat.min 5 (S (length (completed_jobs self))) /\
  last (recent_completed overview) = Some result /\
  active_job_ids overview
  = active_job_ids (get_all_jobs_status self) ∖ {[ job_id ]}.
Proof.
  intros result after overview.
  assert (Hhist : completed_jobs after = completed_jobs self ++ [result]).
  { unfold after, result, run_scraping_job.
    by destruct (job_body env search_criteria max_properties concurrency)
      as [[[s0 properties] stats]|e]. }
  assert (Hact : active_scrapers after = delete job_id (active_scrapers self)).
  { unfold after, run_scraping_job.
    destruct (job_body env search_criteria max_properties concurrency)
      as [[[s0 properties] stats]|e]; cbn [snd active_scrapers];
      by rewrite ?delete_insert_eq. }
  unfold overview, get_all_jobs_status.
  cbn [completed_jobs_count recent_completed active_job_ids].
  rewrite Hhist, Hact, length_app. cbn [length]. repeat apply conj.
  - lia.
  - apply suffix_drop.
  - rewrite length_drop, length_app. cbn [length]. lia.
  - rewrite drop_app_le by lia. apply last_snoc.
  - apply dom_delete_L.
Qed.

(** ** The semaphore: where a batch ends *)

Lemma finished_no_slot (ts : list task_state) :
  Forall finished ts -> slot_count ts = 0%nat.
Proof.
  unfold slot_count. induction 1 as [|t ts [r ->] _ IH]; [done|]. exact IH.
Qed.

(** X23: with at least one slot a batch is never stuck: from every
    configuration it can reach, it can go on to one where every fetch has
    finished, each with what [fetch_page] returns for its responses. *)
Theorem batch_never_stuck (max_concurrent : Z) (retries : nat)
    (session_get : nat -> nat -> attempt_result) (n : nat) (c : config) :
  1 <= max_concurrent ->
  reachable max_concurrent retries session_get n c ->
  exists c',
    rtc (step retries session_get) c c' /\
    length (tasks c') = n /\
    forall i t, tasks c' !! i = Some t ->
      exists result, t = Finished result /\
        forall request_delay url st,
          result = (fetch_page request_delay (session_get i) url
                      (Z.of_nat retries) st).1.
Proof.
  intros Hk.
  assert (Hrun : forall m c0, batch_work_left retries c0 = m ->
    reachable max_concurrent retries session_get n c0 ->
    exists c', rtc (step retries session_get) c0 c' /\
               reachable max_concurrent retries session_get n c' /\
               Forall finished (tasks c')).
  { induction m as [m IH] using lt_wf_ind. intros c0 Hm Hreach.
    destruct (batch_progress max_concurrent retries session_get n Hk c0 Hreach)
      as [Hall|[c1 Hstep]]; [by exists c0|].
    destruct (IH (batch_work_left retries c1)
                ltac:(apply step_work_left in Hstep; lia) c1 eq_refl)
      as (c' & Hrtc & Hreach' & Hall).
    { by eapply rtc_r. }
    exists c'. split; [by eapply rtc_l|done]. }
  intros Hreach. destruct (Hrun _ c eq_refl Hreach) as (c' & Hrtc & Hreach' & Hall).
  exists c'. split; [done|].
  destruct (reachable_gate_invariant max_concurrent retries session_get n
              ltac:(lia) c' Hreach') as (_ & _ & Hlen).
  split; [done|]. intros i t Hi.
  pose proof (reachable_tasks_sound _ _ _ _ _ Hreach' i t Hi) as Hsound.
  rewrite Forall_lookup in Hall. destruct (Hall i t Hi) as [result ->].
  by exists result.
Qed.

Lemma batch_never_stuck_witness :
  1 <= 1 /\
  reachable 1 3 (fun _ => always 503) 2 one_in_flight /\
  exists c',
    rtc (step 3 (fun _ => always 503)) one_in_flight c' /\
    length (tasks c') = 2%nat.
Proof.
  assert (Hreach : reachable 1 3 (fun _ => always 503) 2 one_in_flight).
  { apply rtc_once.
    apply (step_acquire 3 (fun _ => always 503) (initial_config 1 2) 0%nat).
    - reflexivity.
    - simpl. lia. }
  split; [lia|]. split; [exact Hreach|].
  destruct (batch_never_stuck 1 3 (fun _ => always 503) 2 one_in_flight
              ltac:(lia) Hreach) as (c' & Hrtc & Hlen & _).
  exists c'. split; [exact Hrtc | exact Hlen].
Defined.

Lemma initial_work_left (max_concurrent : Z) (retries n : nat) :
  batch_work_left retries (initial_config max_concurrent n) = (n * (retries + 2))%nat.
Proof.
  unfold batch_work_left, initial_config. cbn [tasks].
  induction n as [|n IH]; [done|]. cbn [replicate sum_list_with work_left].
  rewrite IH. lia.
Qed.

(** X24: no batch runs for ever: a run of a batch of [n] fetches has at most
    [n * (retries + 2)] steps (for each fetch the acquire, [retries] attempts
    and the return), whatever the semaphore was given and whatever the site
    answers. *)
Theorem batch_run_length (max_concurrent : Z) (retries : nat)
    (session_get : nat -> nat -> attempt_result) (n m : nat) (c : config) :
  nsteps (step retries session_get) m (initial_config max_concurrent n) c ->
  (m <= n * (retries + 2))%nat.
Proof.
  intros Hrun. apply nsteps_work_left in Hrun.
  rewrite initial_work_left in Hrun. lia.
Qed.

Lemma batch_run_length_witness :
  nsteps (step 3 (fun _ => always 503)) 1 (initial_config 1 2) one_in_flight /\
  (1 <= 2 * (3 + 2))%nat.
Proof.
  assert (Hrun : nsteps (step 3 (fun _ => always 503)) 1 (initial_config 1 2)
                   one_in_flight).
  { apply nsteps_once.
    apply (step_acquire 3 (fun _ => always 503) (initial_config 1 2) 0%nat).
    - reflexivity.
    - simpl. lia. }
  split; [exact Hrun|].
  exact (batch_run_length 1 3 (fun _ => always 503) 2 1 one_in_flight Hrun).
Defined.

(** X25: a semaphore made with 0 lets nothing through: the batch stays in
    its first configuration, every fetch blocked, so with at least one URL
    it never finishes. *)
Theorem zero_slots_block (retries : nat)
    (session_get : nat -> nat -> attempt_result) (n : nat) (c : config) :
  reachable 0 retries session_get n c ->
  c = initial_config 0 n /\
  forall i, (i < n)%nat -> tasks c !! i = Some Blocked.
Proof.
  intros Hreach.
  assert (Hc : c = initial_config 0 n).
  { revert c Hreach. unfold reachable. apply rtc_ind_r; [done|].
    intros c1 c2 _ Hstep ->. by apply no_slot_no_step in Hstep. }
  split; [done|]. subst c. intros i Hi. cbn [initial_config tasks].
  by apply lookup_replicate_2.
Qed.

Lemma zero_slots_block_witness :
  reachable 0 3 (fun _ => always 200) 2 (initial_config 0 2) /\
  tasks (initial_config 0 2) !! 1%nat = Some Blocked.
Proof.
  assert (Hreach : reachable 0 3 (fun _ => always 200) 2 (initial_config 0 2))
    by apply rtc_refl.
  split; [exact Hreach|].
  apply (proj2 (zero_slots_block 3 (fun _ => always 200) 2 _ Hreach)). lia.
Defined.

(** X26: no slot is lost: when every fetch of a batch has finished, the
    counter of the semaphore is back at [max_concurrent], however the
    fetches ended. *)
Theorem slots_all_returned (max_concurrent : Z) (retries : nat)
    (session_get : nat -> nat -> attempt_result) (n : nat) (c : config) :
  0 <= max_concurrent ->
  reachable max_concurrent retries session_get n c ->
  Forall finished (tasks c) ->
  sem_value c = max_concurrent.
Proof.
  intros Hk Hreach Hall.
  destruct (reachable_gate_invariant _ _ _ _ Hk c Hreach) as (Hsum & _ & _).
  unfold in_flight in Hsum. apply finished_no_slot in Hall.
  unfold slot_count in Hall. rewrite Hall in Hsum. lia.
Qed.

Lemma slots_all_returned_witness :
  0 <= 1 /\
  reachable 1 3 one_page_site 2 both_returned /\
  Forall finished (tasks both_returned) /\
  sem_value both_returned = 1.
Proof.
  assert (Hreach : reachable 1 3 one_page_site 2 both_returned).
  { unfold reachable. eapply rtc_l.
    { apply (step_acquire 3 one_page_site (initial_config 1 2) 0%nat);
        [reflexivity | simpl; lia]. }
    eapply rtc_l.
    { apply (step_return 3 one_page_site _ 0%nat 0%nat "<html>listing</html>");
        [reflexivity | lia | reflexivity]. }
    eapply rtc_l.
    { apply (step_acquire 3 one_page_site _ 1%nat);
        [reflexivity | simpl; lia]. }
    eapply rtc_l.
    { apply (step_retry 3 one_page_site _ 1%nat 0%nat false);
        [reflexivity | lia | reflexivity]. }
    eapply rtc_l.
    { apply (step_retry 3 one_page_site _ 1%nat 1%nat false);
        [reflexivity | lia | reflexivity]. }
    eapply rtc_l.
    { apply (step_retry 3 one_page_site _ 1%nat 2%nat false);
        [reflexivity | lia | reflexivity]. }
    eapply rtc_l.
    { apply (step_exhausted 3 one_page_site _ 1%nat 3%nat);
        [reflexivity | lia]. }
    apply rtc_refl. }
  assert (Hall : Forall finished (tasks both_returned)).
  { repeat constructor; eexists; reflexivity. }
  split; [lia|]. split; [exact Hreach|]. split; [exact Hall|].
  exact (slots_all_returned 1 3 one_page_site 2 both_returned ltac:(lia)
           Hreach Hall).
Defined.

(** X27: however the fetches of a batch interleave, the shared cursor of
    the rotation stays inside the pool of user agents. *)
Theorem agent_cursor_in_pool (max_concurrent : Z) (retries : nat)
    (session_get : nat -> nat -> attempt_result) (n : nat) (c : config) :
  reachable max_concurrent retries session_get n c ->
  (agent_cursor c < length user_agents)%nat.
Proof.
  unfold reachable. revert c. apply rtc_ind_r.
  - cbn. lia.
  - intros c1 c2 _ Hstep IH.
    step_cases Hstep; cbn [agent_cursor]; try done;
      unfold rotate; apply Nat.mod_upper_bound; cbn; lia.
Qed.

Lemma agent_cursor_in_pool_witness :
  reachable 1 3 (fun _ => always 503) 2 one_in_flight /\
  (agent_cursor one_in_flight < length user_agents)%nat.
Proof.
  assert (Hreach : reachable 1 3 (fun _ => always 503) 2 one_in_flight).
  { apply rtc_once.
    apply (step_acquire 3 (fun _ => always 503) (initial_config 1 2) 0%nat).
    - reflexivity.
    - simpl. lia. }
  split; [exact Hreach|].
  exact (agent_cursor_in_pool 1 3 (fun _ => always 503) 2 _ Hreach).
Defined.

(** ** The semaphore: the rotation shared by the fetches of a batch *)

Lemma sum_imap_insert {A} (f : nat -> A -> nat) (l : list A) (i : nat) (x y : A) :
  l !! i = Some x ->
  (sum_list (imap f (<[i := y]> l)) + f i x = sum_list (imap f l) + f i y)%nat.
Proof.
  revert f i. induction l as [|z l IH]; intros f i Hi; [done|].
  destruct i as [|i]; cbn in *.
  - injection Hi as ->. lia.
  - specialize (IH (f ∘ S) i Hi). rewrite <- !Nat.add_assoc. f_equal. exact IH.
Qed.

Lemma sum_imap_zero {A} (f : nat -> A -> nat) (l : list A) :
  (forall i x, l !! i = Some x -> f i x = 0%nat) ->
  sum_list (imap f l) = 0%nat.
Proof.
  revert f. induction l as [|z l IH]; intros f Hf; [done|].
  cbn. rewrite (Hf 0%nat z eq_refl), IH; [done|].
  intros i x Hi. apply (Hf (S i) x Hi).
Qed.

Lemma requests_until_return_fail (session_get : nat -> attempt_result)
    (attempts rest : list nat) :
  Forall (fun a => fails (session_get a)) attempts ->
  requests_until_return session_get (attempts ++ rest)
  = (length attempts + requests_until_return session_get rest)%nat.
Proof.
  induction 1 as [|a l Ha _ IH]; [done|].
  apply fails_judge in Ha as [limited Hj]. cbn. by rewrite Hj, IH.
Qed.

Lemma requests_until_return_at (session_get : nat -> attempt_result)
    (retries a : nat) (content : string) :
  (a < retries)%nat ->
  (forall b, (b < a)%nat -> fails (session_get b)) ->
  judge (session_get a) = ReturnContent content ->
  requests_until_return session_get (seq 0 retries) = S a.
Proof.
  intros Ha Hfail Hj.
  assert (Hs : seq 0 retries = seq 0 a ++ a :: seq (S a) (retries - S a)).
  { replace retries with (a + S (retries - S a))%nat at 1 by lia.
    rewrite seq_app. reflexivity. }
  rewrite Hs, requests_until_return_fail.
  - cbn [requests_until_return]. rewrite Hj, length_seq. lia.
  - apply Forall_forall. intros b Hb. apply Hfail. apply elem_of_seq in Hb. lia.
Qed.

Lemma requests_until_return_none (session_get : nat -> attempt_result)
    (retries : nat) :
  (forall b, (b < retries)%nat -> fails (session_get b)) ->
  requests_until_return session_get (seq 0 retries) = retries.
Proof.
  intros Hfail. rewrite <- (app_nil_r (seq 0 retries)).
  rewrite requests_until_return_fail.
  - cbn [requests_until_return]. rewrite length_seq. lia.
  - apply Forall_forall. intros b Hb. apply Hfail. apply elem_of_seq in Hb. lia.
Qed.

(** Each request of the batch moves the shared cursor on by one. *)
Lemma cursor_counts_step (retries : nat)
    (session_get : nat -> nat -> attempt_result) (cursor : nat) (c c' : config) :
  tasks_sound retries session_get c ->
  agent_cursor c
  = ((cursor + batch_requests retries session_get c) mod length user_agents)%nat ->
  step retries session_get c c' ->
  agent_cursor c'
  = ((cursor + batch_requests retries session_get c') mod length user_agents)%nat.
Proof.
  intros Hsound Hcur Hstep. unfold batch_requests in *.
  step_cases Hstep; cbn [tasks agent_cursor].
  - pose proof (sum_imap_insert
                  (fun i t => requests_sent retries (session_get i) t)
                  _ _ _ (InLoop 0) Hj) as H.
    cbn [requests_sent] in H. rewrite Hcur. f_equal. lia.
  - pose proof (sum_imap_insert
                  (fun i t => requests_sent retries (session_get i) t)
                  _ _ _ (InLoop (S a)) Hj) as H.
    cbn [requests_sent] in H. unfold rotate. rewrite Hcur.
    rewrite Nat.Div0.add_mod_idemp_l. f_equal. lia.
  - pose proof (sum_imap_insert
                  (fun i t => requests_sent retries (session_get i) t)
                  _ _ _ (Finished (Some content)) Hj) as H.
    cbn [requests_sent] in H.
    destruct (Hsound j _ Hj) as [_ Hfail].
    rewrite (requests_until_return_at _ _ _ _ Ha Hfail Hjudge) in H.
    unfold rotate. rewrite Hcur.
    rewrite Nat.Div0.add_mod_idemp_l. f_equal. lia.
  - pose proof (sum_imap_insert
                  (fun i t => requests_sent retries (session_get i) t)
                  _ _ _ (Finished None) Hj) as H.
    cbn [requests_sent] in H.
    destruct (Hsound j _ Hj) as [Hle Hfail].
    assert (a = retries) as -> by lia.
    rewrite (requests_until_return_none _ _ Hfail) in H.
    rewrite Hcur. f_equal. lia.
Qed.

(** X4: the rotation is shared by the fetches of a batch and moves on with
    every request, whatever its outcome and whichever fetch sends it:
    however the fetches interleave, the cursor stands at where the batch
    found it plus the number of GETs all its fetches have made so far, taken
    around the pool; for a fetch that has finished, that number is the
    number of GETs of [fetch_page] on its responses. *)
Theorem shared_cursor_counts_requests (max_concurrent : Z) (retries : nat)
    (session_get : nat -> nat -> attempt_result) (n cursor : nat) (c : config) :
  (cursor < length user_agents)%nat ->
  rtc (step retries session_get) (batch_from max_concurrent cursor n) c ->
  agent_cursor c
  = ((cursor + batch_requests retries session_get c) mod length user_agents)%nat /\
  (forall i result, tasks c !! i = Some (Finished result) ->
     forall request_delay url st,
       attempts_made
         (events (fetch_page request_delay (session_get i) url
                    (Z.of_nat retries) st).2)
       = (attempts_made (events st)
          + requests_sent retries (session_get i) (Finished result))%nat).
Proof.
  intros Hin Hrun. split.
  - assert (Hinv : tasks_sound retries session_get c /\
      agent_cursor c
      = ((cursor + batch_requests retries session_get c)
         mod length user_agents)%nat).
    { revert c Hrun. apply rtc_ind_r.
      - split.
        + intros i t Hi. apply lookup_replicate in Hi as [-> _]. exact I.
        + unfold batch_requests. cbn [batch_from tasks agent_cursor].
          rewrite sum_imap_zero, Nat.add_0_r, Nat.mod_small; [done|done|].
          intros i t Hi. by apply lookup_replicate in Hi as [-> _].
      - intros c1 c2 _ Hstep [Hsound Hcur]. split.
        + by eapply task_sound_step.
        + by eapply cursor_counts_step. }
    apply Hinv.
  - intros i result _ request_delay url st. unfold fetch_page.
    rewrite Nat2Z.id. apply fetch_attempts_requests.
Qed.

Lemma shared_cursor_counts_requests_witness :
  (3 < length user_agents)%nat /\
  rtc (step 3 (fun _ => always 503)) (batch_from 2 3 2) two_interleaved /\
  batch_requests 3 (fun _ => always 503) two_interleaved = 3%nat /\
  agent_cursor two_interleaved = ((3 + 3) mod length user_agents)%nat.
Proof.
  assert (Hin : (3 < length user_agents)%nat) by (simpl; lia).
  assert (Hrun : rtc (step 3 (fun _ => always 503)) (batch_from 2 3 2)
                   two_interleaved).
  { eapply rtc_l.
    { apply (step_acquire 3 (fun _ => always 503) (batch_from 2 3 2) 0%nat);
        [reflexivity | simpl; lia]. }
    eapply rtc_l.
    { apply (step_acquire 3 (fun _ => always 503) _ 1%nat);
        [reflexivity | simpl; lia]. }
    eapply rtc_l.
    { apply (step_retry 3 (fun _ => always 503) _ 0%nat 0%nat false);
        [reflexivity | lia | reflexivity]. }
    eapply rtc_l.
    { apply (step_retry 3 (fun _ => always 503) _ 1%nat 0%nat false);
        [reflexivity | lia | reflexivity]. }
    eapply rtc_l.
    { apply (step_retry 3 (fun _ => always 503) _ 0%nat 1%nat false);
        [reflexivity | lia | reflexivity]. }
    apply rtc_refl. }
  split; [exact Hin|]. split; [exact Hrun|]. split; [reflexivity|].
  exact (proj1 (shared_cursor_counts_requests 2 3 (fun _ => always 503) 2 3
                  two_interleaved Hin Hrun)).
Defined.

(** ** run_multiple_jobs, then get_job_status *)

Lemma find_only {A} (f : A -> bool) (l : list A) (x : A) :
  x ∈ l -> f x = true -> (forall y, y ∈ l -> f y = true -> y = x) ->
  List.find f l = Some x.
Proof.
  induction l as [|z l IH]; intros Hin Hx Honly.
  - by apply elem_of_nil in Hin.
  - simpl. destruct (f z) eqn:Hz.
    + f_equal. apply Honly; [left|done].
    + apply IH; [|done|].
      * apply elem_of_cons in Hin as [->|Hin]; [congruence|done].
      * intros y Hy. apply Honly. by right.
Qed.

Lemma start_job_stored_id (envs : nat -> environment) (i : nat) (j : job)
    (self : manager) :
  stored_job_id (start_job envs i j self).1 = Some (job_id_of j).
Proof.
  unfold start_job. rewrite run_scraping_job_result.
  by destruct (job_body _ _ _ _) as [[[s0 properties] stats]|e].
Qed.

(** X28: the jobs of a batch can be looked up afterwards: when the ids of
    the jobs differ from each other and the history holds none of them yet,
    [get_job_status] answers, for the id of each job, with the very result
    [run_multiple_jobs] returned in the position of that job. *)
Theorem run_multiple_jobs_then_status (envs : nat -> environment)
    (job_latency : nat -> nat) (jobs : list job) (self : manager)
    (i : nat) (j : job) :
  NoDup (map job_id_of jobs) ->
  (forall r, r ∈ completed_jobs self -> has_job_id (job_id_of j) r = false) ->
  jobs !! i = Some j ->
  exists result,
    (run_multiple_jobs envs job_latency jobs self).1 !! i = Some result /\
    get_job_status (job_id_of j) (run_multiple_jobs envs job_latency jobs self).2
    = ReportResult result.
Proof.
  intros Hnd Hold Hi. exists (start_job envs i j self).1. split.
  { by rewrite run_multiple_jobs_lookup, Hi. }
  unfold run_multiple_jobs. cbn [snd].
  rewrite (finish_jobs_state envs self). unfold get_job_status.
  cbn [active_scrapers completed_jobs].
  assert (Harr : (i, j) ∈ arrivals job_latency jobs).
  { rewrite arrivals_Permutation. by apply (elem_of_lookup_imap_2 pair). }
  rewrite deleted_jobs_lookup, decide_True.
  2:{ apply Exists_exists. by exists (i, j). }
  rewrite find_app.
  assert (Hnone : List.find (has_job_id (job_id_of j)) (completed_jobs self) = None).
  { destruct (List.find _ (completed_jobs self)) as [r|] eqn:Hf; [|done].
    apply find_some in Hf as [Hin Hr]. apply list_elem_of_In in Hin.
    rewrite Hold in Hr by done. discriminate Hr. }
  rewrite Hnone.
  rewrite (find_only _ _ (start_job envs i j self).1); [done| | |].
  - apply list_elem_of_fmap. by exists (i, j).
  - unfold has_job_id. rewrite start_job_stored_id. apply String.eqb_refl.
  - intros r Hr Hid. apply list_elem_of_fmap in Hr as ([i' j'] & -> & Hin).
    cbn [fst snd] in *. unfold has_job_id in Hid.
    rewrite start_job_stored_id in Hid. apply String.eqb_eq in Hid.
    rewrite arrivals_Permutation in Hin.
    apply elem_of_lookup_imap in Hin as (i2 & j2 & [= -> ->] & Hi2).
    assert (i2 = i) as ->.
    { eapply NoDup_lookup; [exact Hnd| |].
      - by rewrite list_lookup_fmap, Hi2.
      - rewrite list_lookup_fmap, Hi. cbn. by rewrite Hid. }
    by assert (j2 = j) as -> by congruence.
Qed.

Lemma run_multiple_jobs_then_status_witness :
  NoDup (map job_id_of three_jobs) /\
  get_job_status "job-2"
    (run_multiple_jobs three_envs (fun i => 9 - i)%nat three_jobs new_manager).2
  = ReportResult
      (JobCompleted "job-2" [] 0 austin
         {| total_properties_scraped := 0; failed_urls_count := 0;
            success_rate := 0%float;
            stats_max_concurrent := 2; stats_request_delay := 2 |}).
Proof.
  assert (Hnd : NoDup (map job_id_of three_jobs)).
  { apply NoDup_ListNoDup. repeat constructor; cbn; intuition discriminate. }
  split; [exact Hnd|].
  destruct (run_multiple_jobs_then_status three_envs (fun i => 9 - i)%nat
              three_jobs new_manager 1 _ Hnd
              ltac:(intros r Hr; by apply elem_of_nil in Hr) eq_refl)
    as (result & Hres & Hstatus).
  cbn [job_id_of] in Hstatus. rewrite Hstatus. f_equal.
  assert (Hval : (run_multiple_jobs three_envs (fun i => 9 - i)%nat three_jobs
                    new_manager).1 !! 1%nat
                 = Some (JobCompleted "job-2" [] 0 austin
                     {| total_properties_scraped := 0; failed_urls_count := 0;
                        success_rate := 0%float;
                        stats_max_concurrent := 2; stats_request_delay := 2 |}))
    by (vm_compute; reflexivity).
  congruence.
Defined.
